(** * PrintingMonitor: the print-job monitor of [print_monitor.cpp]

    A shallow embedding of the job normalisation, the bounded and
    deduplicated job history, the device-settings decoders, the CSV export
    and the periodic save loop, with the properties stated about them. *)

From Stdlib Require Import ZArith Ascii String DecimalString DecimalPos DecimalN.
From stdpp Require Import base numbers list strings gmap.

Local Open Scope string_scope.
Local Open Scope Z_scope.
Local Open Scope list_scope.

(** ** Windows declarations the program relies on *)

(** [DWORD] values are unsigned 32-bit integers. *)
Definition is_DWORD (x : Z) : Prop := 0 ≤ x < 2 ^ 32.

(** Conversion of a [DWORD] to [int], as in [static_cast<int>(...)] and in
    the assignment to an [int] member: the value is reduced modulo 2^32
    into the signed range (what g++ does, the compiler the file's header
    names). *)
Definition to_int (x : Z) : Z := (x + 2 ^ 31) mod 2 ^ 32 - 2 ^ 31.

(** The macros of [winspool.h] and [wingdi.h] that the program tests
    against. The headers are not part of the repository, so the program
    is modelled for arbitrary values of them. *)
Class WinSpool := {
  JOB_STATUS_PAUSED : Z;
  JOB_STATUS_ERROR : Z;
  JOB_STATUS_DELETING : Z;
  JOB_STATUS_SPOOLING : Z;
  JOB_STATUS_PRINTING : Z;
  JOB_STATUS_OFFLINE : Z;
  JOB_STATUS_PAPEROUT : Z;
  JOB_STATUS_DELETED : Z;
  JOB_STATUS_BLOCKED_DEVQ : Z;
  JOB_STATUS_USER_INTERVENTION : Z;
  DM_COLOR : Z;
  DM_DUPLEX : Z;
  DM_PAPERSIZE : Z;
  DMCOLOR_COLOR : Z;
  DMDUP_SIMPLEX : Z;
  DMDUP_VERTICAL : Z;
  DMDUP_HORIZONTAL : Z;
  DMPAPER_LETTER : Z;
  DMPAPER_LEGAL : Z;
  DMPAPER_A4 : Z;
  DMPAPER_A3 : Z;
  DMPAPER_A5 : Z
}.

(** The values the Windows SDK gives these macros; used for the concrete
    examples. *)
Definition windows_sdk : WinSpool := {|
  JOB_STATUS_PAUSED := 0x1;
  JOB_STATUS_ERROR := 0x2;
  JOB_STATUS_DELETING := 0x4;
  JOB_STATUS_SPOOLING := 0x8;
  JOB_STATUS_PRINTING := 0x10;
  JOB_STATUS_OFFLINE := 0x20;
  JOB_STATUS_PAPEROUT := 0x40;
  JOB_STATUS_DELETED := 0x100;
  JOB_STATUS_BLOCKED_DEVQ := 0x200;
  JOB_STATUS_USER_INTERVENTION := 0x400;
  DM_COLOR := 0x800;
  DM_DUPLEX := 0x1000;
  DM_PAPERSIZE := 0x2;
  DMCOLOR_COLOR := 2;
  DMDUP_SIMPLEX := 1;
  DMDUP_VERTICAL := 2;
  DMDUP_HORIZONTAL := 3;
  DMPAPER_LETTER := 1;
  DMPAPER_LEGAL := 5;
  DMPAPER_A4 := 9;
  DMPAPER_A3 := 8;
  DMPAPER_A5 := 11
|}.

(** The members of [DEVMODE] the decoders read. *)
Record DEVMODE := mkDEVMODE {
  dmFields : Z;
  dmColor : Z;
  dmDuplex : Z;
  dmPaperSize : Z
}.

(** The members of [JOB_INFO_2A] the monitor reads; a pointer member is
    [None] when null. *)
Record JOB_INFO_2 := mkJOB_INFO_2 {
  JobId : Z;
  pUserName : option string;
  pDevMode : option DEVMODE;
  Status : Z;
  TotalPages : Z;
  Size : Z;
  PagesPrinted : Z
}.

(** [x & mask] used as a condition. *)
Definition flagSet (x mask : Z) : bool := negb (Z.land x mask =? 0).

(** ** Record model *)

(** [struct PrintJob]; the two [int] members are signed 32-bit values. *)
Record PrintJob := mkPrintJob {
  printerName : string;
  timestamp : string;
  status : string;
  pages : Z;
  documentSize : Z;
  colorMode : string;
  duplexSetting : string;
  paperSize : string;
  userAccount : string;
  jobId : string
}.

(** A default-constructed [PrintJob]: empty strings and the two member
    initialisers [= 0]. *)
Definition defaultPrintJob : PrintJob :=
  mkPrintJob "" "" "" 0 0 "" "" "" "" "".

(** Assignments to the members of a [PrintJob]. *)
Definition set_printerName (v : string) (j : PrintJob) : PrintJob :=
  mkPrintJob v (timestamp j) (status j) (pages j) (documentSize j)
    (colorMode j) (duplexSetting j) (paperSize j) (userAccount j) (jobId j).
Definition set_timestamp (v : string) (j : PrintJob) : PrintJob :=
  mkPrintJob (printerName j) v (status j) (pages j) (documentSize j)
    (colorMode j) (duplexSetting j) (paperSize j) (userAccount j) (jobId j).
Definition set_status (v : string) (j : PrintJob) : PrintJob :=
  mkPrintJob (printerName j) (timestamp j) v (pages j) (documentSize j)
    (colorMode j) (duplexSetting j) (paperSize j) (userAccount j) (jobId j).
Definition set_pages (v : Z) (j : PrintJob) : PrintJob :=
  mkPrintJob (printerName j) (timestamp j) (status j) v (documentSize j)
    (colorMode j) (duplexSetting j) (paperSize j) (userAccount j) (jobId j).
Definition set_documentSize (v : Z) (j : PrintJob) : PrintJob :=
  mkPrintJob (printerName j) (timestamp j) (status j) (pages j) v
    (colorMode j) (duplexSetting j) (paperSize j) (userAccount j) (jobId j).
Definition set_colorMode (v : string) (j : PrintJob) : PrintJob :=
  mkPrintJob (printerName j) (timestamp j) (status j) (pages j) (documentSize j)
    v (duplexSetting j) (paperSize j) (userAccount j) (jobId j).
Definition set_duplexSetting (v : string) (j : PrintJob) : PrintJob :=
  mkPrintJob (printerName j) (timestamp j) (status j) (pages j) (documentSize j)
    (colorMode j) v (paperSize j) (userAccount j) (jobId j).
Definition set_paperSize (v : string) (j : PrintJob) : PrintJob :=
  mkPrintJob (printerName j) (timestamp j) (status j) (pages j) (documentSize j)
    (colorMode j) (duplexSetting j) v (userAccount j) (jobId j).
Definition set_userAccount (v : string) (j : PrintJob) : PrintJob :=
  mkPrintJob (printerName j) (timestamp j) (status j) (pages j) (documentSize j)
    (colorMode j) (duplexSetting j) (paperSize j) v (jobId j).
Definition set_jobId (v : string) (j : PrintJob) : PrintJob :=
  mkPrintJob (printerName j) (timestamp j) (status j) (pages j) (documentSize j)
    (colorMode j) (duplexSetting j) (paperSize j) (userAccount j) v.

(** The identity of a record for deduplication. *)
Definition keyOf (job : PrintJob) : string * string :=
  (printerName job, jobId job).

(** ** Snapshot store: the guarded block of [monitorPrintJobs] *)

Module Store.

(** The comparison inside the scan,
    [existingJob.jobId == job.jobId && existingJob.printerName == job.printerName]. *)
Definition sameJob (job existingJob : PrintJob) : bool :=
  String.eqb (jobId existingJob) (jobId job)
  && String.eqb (printerName existingJob) (printerName job).

(** The scan [for (const auto& existingJob : printJobs) ... break;]
    computing [exists]. *)
Definition alreadyRecorded (printJobs : list PrintJob) (job : PrintJob) : bool :=
  existsb (sameJob job) printJobs.

(** Which branch the block took. *)
Inductive Path := Skipped | Appended | AppendedEvicted.

(** The block between the braces holding [jobsMutex]: scan, then
    [push_back] when the pair is new, then [erase] of the first 100
    elements when the size has gone over 1000. *)
Definition insert_if_novel (job : PrintJob) (printJobs : list PrintJob)
  : Path * list PrintJob :=
  if alreadyRecorded printJobs job then (Skipped, printJobs)
  else
    let pushed := printJobs ++ [job] in
    if (1000 <? length pushed)%nat then (AppendedEvicted, drop 100 pushed)
    else (Appended, pushed).

Definition inserted (p : Path) : bool :=
  match p with Skipped => false | _ => true end.

(** A sequence of calls, oldest first, with the branch each one took. *)
Fixpoint insert_all (jobs : list PrintJob) (printJobs : list PrintJob)
  : list Path * list PrintJob :=
  match jobs with
  | [] => ([], printJobs)
  | job :: rest =>
      let '(p, printJobs') := insert_if_novel job printJobs in
      let '(ps, final) := insert_all rest printJobs' in
      (p :: ps, final)
  end.

Definition evicted (p : Path) : bool :=
  match p with AppendedEvicted => true | _ => false end.

(** How many of the calls erased the oldest block. *)
Definition evictions (ps : list Path) : nat :=
  length (List.filter evicted ps).

End Store.

(** ** Device-settings decoder *)

Module Decoder.
Section Decoder.
Context `{WinSpool}.

(** [getColorMode] *)
Definition getColorMode (pDevMode : option DEVMODE) : string :=
  match pDevMode with
  | None => "Unknown"
  | Some dm =>
      if flagSet (dmFields dm) DM_COLOR then
        if dmColor dm =? DMCOLOR_COLOR then "Color" else "Monochrome"
      else "Unknown"
  end.

(** [getDuplexSetting] *)
Definition getDuplexSetting (pDevMode : option DEVMODE) : string :=
  match pDevMode with
  | None => "Unknown"
  | Some dm =>
      if flagSet (dmFields dm) DM_DUPLEX then
        if dmDuplex dm =? DMDUP_SIMPLEX then "Simplex"
        else if dmDuplex dm =? DMDUP_VERTICAL then "Duplex Vertical"
        else if dmDuplex dm =? DMDUP_HORIZONTAL then "Duplex Horizontal"
        else "Unknown"
      else "Unknown"
  end.

(** [getPaperSize] *)
Definition getPaperSize (pDevMode : option DEVMODE) : string :=
  match pDevMode with
  | None => "Unknown"
  | Some dm =>
      if flagSet (dmFields dm) DM_PAPERSIZE then
        if dmPaperSize dm =? DMPAPER_LETTER then "Letter"
        else if dmPaperSize dm =? DMPAPER_LEGAL then "Legal"
        else if dmPaperSize dm =? DMPAPER_A4 then "A4"
        else if dmPaperSize dm =? DMPAPER_A3 then "A3"
        else if dmPaperSize dm =? DMPAPER_A5 then "A5"
        else "Custom"
      else "Unknown"
  end.

(** The paper-size codes [getPaperSize] has a case for. *)
Definition recognizedPaper : list Z :=
  [DMPAPER_LETTER; DMPAPER_LEGAL; DMPAPER_A4; DMPAPER_A3; DMPAPER_A5].

End Decoder.
End Decoder.

(** ** Normalisation of one enumerated job *)

Module Normalize.
Section Normalize.
Context `{WinSpool}.

(** [ansiStringToUtf8] *)
Definition ansiStringToUtf8 (ansiStr : option string) : string :=
  match ansiStr with
  | None => ""
  | Some s => s
  end.

(** [std::to_string] on an unsigned value. *)
Definition to_string (n : Z) : string :=
  NilZero.string_of_uint (N.to_uint (Z.to_N n)).

(** The chain [if (Status & JOB_STATUS_PAUSED) ... else ... "Queued"]. *)
Definition mapJobStatus (st : Z) : string :=
  if flagSet st JOB_STATUS_PAUSED then "Paused"
  else if flagSet st JOB_STATUS_ERROR then "Error"
  else if flagSet st JOB_STATUS_DELETING then "Deleting"
  else if flagSet st JOB_STATUS_SPOOLING then "Spooling"
  else if flagSet st JOB_STATUS_PRINTING then "Printing"
  else if flagSet st JOB_STATUS_OFFLINE then "Offline"
  else if flagSet st JOB_STATUS_PAPEROUT then "Paper Out"
  else if flagSet st JOB_STATUS_DELETED then "Deleted"
  else if flagSet st JOB_STATUS_BLOCKED_DEVQ then "Blocked"
  else if flagSet st JOB_STATUS_USER_INTERVENTION then "User Intervention Required"
  else "Queued".

(** The stated precedence order, as a table of flag and status name,
    and the first-match lookup over it; [mapJobStatus] is compared with
    this. *)
Definition statusPrecedence : list (Z * string) :=
  [ (JOB_STATUS_PAUSED, "Paused");
    (JOB_STATUS_ERROR, "Error");
    (JOB_STATUS_DELETING, "Deleting");
    (JOB_STATUS_SPOOLING, "Spooling");
    (JOB_STATUS_PRINTING, "Printing");
    (JOB_STATUS_OFFLINE, "Offline");
    (JOB_STATUS_PAPEROUT, "Paper Out");
    (JOB_STATUS_DELETED, "Deleted");
    (JOB_STATUS_BLOCKED_DEVQ, "Blocked");
    (JOB_STATUS_USER_INTERVENTION, "User Intervention Required") ].

Fixpoint firstMatch (st : Z) (table : list (Z * string)) : string :=
  match table with
  | [] => "Queued"
  | (flag, name) :: rest =>
      if flagSet st flag then name else firstMatch st rest
  end.

(** The page count before it is stored in the [int] member:
    [TotalPages > 0 ? TotalPages : PagesPrinted]. *)
Definition pageCount (info : JOB_INFO_2) : Z :=
  if 0 <? TotalPages info then TotalPages info else PagesPrinted info.

(** The body of the job loop up to the guarded block: a fresh
    [PrintJob] filled from the printer name, the clock and the
    [JOB_INFO_2] entry. *)
Definition makePrintJob (pPrinterName : option string) (now : string)
    (info : JOB_INFO_2) : PrintJob :=
  let job := defaultPrintJob in
  let job := set_printerName (ansiStringToUtf8 pPrinterName) job in
  let job := set_timestamp now job in
  let job := set_status (mapJobStatus (Status info)) job in
  let job := set_pages (to_int (pageCount info)) job in
  let job := set_documentSize (to_int (Size info)) job in
  let job := set_userAccount (ansiStringToUtf8 (pUserName info)) job in
  let job := set_jobId (to_string (JobId info)) job in
  match pDevMode info with
  | Some dm =>
      let job := set_colorMode (Decoder.getColorMode (Some dm)) job in
      let job := set_duplexSetting (Decoder.getDuplexSetting (Some dm)) job in
      set_paperSize (Decoder.getPaperSize (Some dm)) job
  | None => job
  end.

End Normalize.
End Normalize.

(** ** Effects: what a thread does, as a trace *)

(** The two global mutexes. *)
Inductive Mutex := jobsMutex | logMutex.

Definition Mutex_eqb (a b : Mutex) : bool :=
  match a, b with
  | jobsMutex, jobsMutex | logMutex, logMutex => true
  | _, _ => false
  end.

(** What a thread does that another thread or the outside can see:
    taking and releasing a mutex (a [lock_guard] and the end of its
    scope), an entry written by [logMessage], the output file being
    opened, written and closed, a [sleep_for], and a call of
    [exportToCSV]. *)
Inductive Event :=
| Acquire (m : Mutex)
| Release (m : Mutex)
| LogWrite (level message : string)
| FileOpen (filename : string)
| FileWrite (text : string)
| FileClose
| Sleep (seconds : nat)
| CallExport (filename : string).

(** Taking or releasing mutex [m]. *)
Definition lockEvent (m : Mutex) (e : Event) : Prop :=
  e = Acquire m ∨ e = Release m.

(** Writing to the log file and the console, and file output. *)
Definition isIO (e : Event) : bool :=
  match e with
  | LogWrite _ _ | FileOpen _ | FileWrite _ | FileClose => true
  | _ => false
  end.

(** Does some input/output happen while mutex [m] is held? [held] tells
    whether it is held at the start of the trace. *)
Fixpoint ioWhileHeld (m : Mutex) (held : bool) (es : list Event) : bool :=
  match es with
  | [] => false
  | Acquire m' :: rest => ioWhileHeld m (Mutex_eqb m m' || held) rest
  | Release m' :: rest => ioWhileHeld m (negb (Mutex_eqb m m') && held) rest
  | e :: rest => (held && isIO e) || ioWhileHeld m held rest
  end.

(** Is an entry of the given level written to the log? *)
Definition logsAt (level : string) (es : list Event) : bool :=
  existsb (λ e, match e with
                | LogWrite l _ => String.eqb l level
                | _ => false
                end) es.

(** [logMessage]: the entry is written under [logMutex]. The time stamp
    in front of the entry is left out of the event. *)
Definition logMessage (level message : string) : list Event :=
  [Acquire logMutex; LogWrite level message; Release logMutex].

(** What a thread sees of the rest of the process: the value of the
    global [monitoringActive], which other threads write, and the clock,
    both at each of the thread's own steps. *)
Record Env := mkEnv {
  monitoringActive : nat → bool;
  getCurrentTimestamp : nat → string
}.

(** The initialiser of the global, [bool monitoringActive = false]. *)
Definition monitoringActive_initial : bool := false.

(** A thread: how many times it has consulted the flag or the clock, and
    what it has done so far, oldest first. *)
Record Thread := mkThread {
  step : nat;
  events : list Event
}.

Definition readFlag (env : Env) (t : Thread) : bool * Thread :=
  (monitoringActive env (step t), mkThread (S (step t)) (events t)).

Definition readClock (env : Env) (t : Thread) : string * Thread :=
  (getCurrentTimestamp env (step t), mkThread (S (step t)) (events t)).

Definition emit (es : list Event) (t : Thread) : Thread :=
  mkThread (step t) (events t ++ es).

(** ** The job loop of [monitorPrintJobs] *)

Module Monitor.
Section Monitor.
Context `{WinSpool}.

Definition detectedMessage (job : PrintJob) : string :=
  "Detected print job: " +:+ jobId job +:+ " on " +:+ printerName job
  +:+ " - Status: " +:+ status job.

(** One iteration of [for (DWORD j = 0; ...)]: build the record, run
    the guarded block, then log if [monitoringActive] is set. *)
Definition recordJob (env : Env) (pPrinterName : option string)
    (info : JOB_INFO_2) (st : list PrintJob * Thread)
  : Store.Path * (list PrintJob * Thread) :=
  let '(printJobs, t) := st in
  let '(now, t) := readClock env t in
  let job := Normalize.makePrintJob pPrinterName now info in
  let t := emit [Acquire jobsMutex] t in
  let '(path, printJobs) := Store.insert_if_novel job printJobs in
  let t := emit [Release jobsMutex] t in
  let '(active, t) := readFlag env t in
  let t := if active then emit (logMessage "INFO" (detectedMessage job)) t
           else t in
  (path, (printJobs, t)).

(** The loop over the jobs [EnumJobs] returned for one printer, with
    its condition [j < numJobs && monitoringActive]. *)
Fixpoint jobLoop (env : Env) (pPrinterName : option string)
    (jobs : list JOB_INFO_2) (st : list PrintJob * Thread)
  : list PrintJob * Thread :=
  match jobs with
  | [] => st
  | info :: rest =>
      let '(active, t) := readFlag env st.2 in
      if active then
        jobLoop env pPrinterName rest
          (recordJob env pPrinterName info (st.1, t)).2
      else (st.1, t)
  end.

(** For the statements below: the record an iteration started in
    thread state [t] builds, and the events it adds to the trace. *)
Definition builtJob (env : Env) (name : option string) (info : JOB_INFO_2)
    (t : Thread) : PrintJob :=
  Normalize.makePrintJob name (getCurrentTimestamp env (step t)) info.

Definition iterationEvents (env : Env) (name : option string)
    (info : JOB_INFO_2) (t : Thread) : list Event :=
  [Acquire jobsMutex; Release jobsMutex]
  ++ (if monitoringActive env (S (step t))
      then logMessage "INFO" (detectedMessage (builtJob env name info t))
      else []).

End Monitor.
End Monitor.

(** ** Export *)

Module Exporter.

Definition dquote : ascii := "034"%char.
Definition newline : string := String "010"%char "".

(** The loops [while ((pos = s.find(quote, pos)) != npos)] that replace
    the character found by two of it and step over both: every double
    quote of the field is doubled. *)
Fixpoint escapeQuotes (s : string) : string :=
  match s with
  | EmptyString => EmptyString
  | String c rest =>
      if Ascii.eqb c dquote then String dquote (String dquote (escapeQuotes rest))
      else String c (escapeQuotes rest)
  end.

Definition quoted (s : string) : string :=
  String dquote (s +:+ String dquote "").

(** [operator<<] on an [int]. *)
Definition int_to_string (n : Z) : string :=
  NilZero.string_of_int (Z.to_int n).

Definition csvHeader : string :=
  quoted "Printer Name" +:+ "," +:+ quoted "Timestamp" +:+ ","
  +:+ quoted "Status" +:+ "," +:+ quoted "Pages" +:+ ","
  +:+ quoted "Document Size" +:+ "," +:+ quoted "Color Mode" +:+ ","
  +:+ quoted "Duplex Setting" +:+ "," +:+ quoted "Paper Size" +:+ ","
  +:+ quoted "User Account" +:+ "," +:+ quoted "Job ID" +:+ newline.

Definition csvRow (job : PrintJob) : string :=
  quoted (escapeQuotes (printerName job)) +:+ ","
  +:+ quoted (timestamp job) +:+ ","
  +:+ quoted (escapeQuotes (status job)) +:+ ","
  +:+ int_to_string (pages job) +:+ ","
  +:+ int_to_string (documentSize job) +:+ ","
  +:+ quoted (escapeQuotes (colorMode job)) +:+ ","
  +:+ quoted (escapeQuotes (duplexSetting job)) +:+ ","
  +:+ quoted (escapeQuotes (paperSize job)) +:+ ","
  +:+ quoted (escapeQuotes (userAccount job)) +:+ ","
  +:+ quoted (escapeQuotes (jobId job)) +:+ newline.

(** The two log messages of [exportToCSV]. *)
Definition exportedMessage (filename : string) (records : nat) : string :=
  "Data exported to: " +:+ filename +:+ " ("
  +:+ NilZero.string_of_uint (Nat.to_uint records) +:+ " records)".

Definition cannotOpenMessage (filename : string) : string :=
  "Could not open file for writing: " +:+ filename.

(** [exportToCSV]. [opens] tells whether the output file could be
    opened; [printJobs] is the global vector at the time of the call.
    The [lock_guard] is taken first and released when the function
    returns. *)
Definition exportToCSV (opens : bool) (filename : string)
    (printJobs : list PrintJob) : bool * list Event :=
  if opens then
    (true,
     [Acquire jobsMutex; FileOpen filename; FileWrite csvHeader]
     ++ (FileWrite ∘ csvRow <$> printJobs)
     ++ [FileClose]
     ++ logMessage "INFO" (exportedMessage filename (length printJobs))
     ++ [Release jobsMutex])
  else
    (false,
     [Acquire jobsMutex; FileOpen filename]
     ++ logMessage "ERROR" (cannotOpenMessage filename)
     ++ [Release jobsMutex]).

End Exporter.

(** ** Periodic save *)

Module Saver.

(** [std::replace(begin, end, ':', '-')] *)
Fixpoint replaceColons (s : string) : string :=
  match s with
  | EmptyString => EmptyString
  | String c rest =>
      String (if Ascii.eqb c ":"%char then "-"%char else c) (replaceColons rest)
  end.

Definition autoSaveName (now : string) : string :=
  replaceColons ("print_jobs_auto_save_" +:+ String.substring 0 19 now +:+ ".csv").

(** [for (int i = 0; i < 1800 && monitoringActive; ++i) sleep 1s],
    with [n] the number of iterations still allowed. *)
Fixpoint sleepLoop (env : Env) (n : nat) (t : Thread) : Thread :=
  match n with
  | O => t
  | S n' =>
      let '(active, t) := readFlag env t in
      if active then sleepLoop env n' (emit [Sleep 1] t) else t
  end.

(** [periodicSave]; [fuel] bounds the number of passes of the outer
    [while], and [None] means the bound was reached before the
    function returned. *)
Fixpoint periodicSave (fuel : nat) (env : Env) (t : Thread) : option Thread :=
  match fuel with
  | O => None
  | S fuel' =>
      let '(active, t) := readFlag env t in
      if active then
        let t := sleepLoop env 1800 t in
        let '(active, t) := readFlag env t in
        let t :=
          if active then
            let '(now, t) := readClock env t in
            emit [CallExport (autoSaveName now)] t
          else t in
        periodicSave fuel' env t
      else Some t
  end.

(** The calls of [exportToCSV] in a trace. *)
Definition exports (es : list Event) : list string :=
  omap (λ e, match e with CallExport f => Some f | _ => None end) es.

(** Seconds slept in a trace. *)
Definition slept (es : list Event) : nat :=
  foldr (λ e acc, match e with Sleep k => (k + acc)%nat | _ => acc end) 0%nat es.

End Saver.
(** ** Sample data for the concrete examples *)

Module Samples.

Definition stamp : string := "2024-05-01T10:00:00.000+00:00".

(** A queued one-page job with identifier [n], without a [DEVMODE]. *)
Definition spooled (n : nat) : JOB_INFO_2 :=
  mkJOB_INFO_2 (Z.of_nat n) (Some "alice") None 0 1 1024 0.

Definition office (n : nat) : PrintJob :=
  @Normalize.makePrintJob windows_sdk (Some "Office") stamp (spooled n).

(** 900 records already stored, and 150 arrivals with fresh identifiers. *)
Definition history : list PrintJob := office <$> seq 0 900.
Definition arrivals : list PrintJob := office <$> seq 900 150.

(** The flag stays set and the clock stands still. *)
Definition running : Env := mkEnv (λ _, true) (λ _, stamp).

(** The flag as [periodicSave] finds it in [main]: still at its initial
    value at the thread's first step, set from then on. *)
Definition started_later : Env :=
  mkEnv (λ n, match n with O => monitoringActive_initial | S _ => true end)
        (λ _, stamp).

Definition idle : Thread := mkThread 0 [].

End Samples.

(** ** The quote-doubling loop of [exportToCSV], as it is written *)

Module Escape.

(** [s.find(c, pos)]: the index of the first [c] at or after [pos];
    [None] is [npos]. *)
Fixpoint find (c : ascii) (s : string) (pos : nat) : option nat :=
  match s with
  | EmptyString => None
  | String a rest =>
      match pos with
      | O => if Ascii.eqb a c then Some O else option_map S (find c rest O)
      | S pos' => option_map S (find c rest pos')
      end
  end.

(** [s.replace(pos, 1, str)] for [pos] within the string, which is where
    the loop calls it: the character at [pos] gives way to [str]. *)
Fixpoint replace1 (pos : nat) (str : string) (s : string) : string :=
  match s with
  | EmptyString => str
  | String a rest =>
      match pos with
      | O => str +:+ rest
      | S pos' => String a (replace1 pos' str rest)
      end
  end.

Definition twoQuotes : string :=
  String Exporter.dquote (String Exporter.dquote "").

(** [while ((pos = s.find(quote, pos)) != npos) { s.replace(pos, 1, two quotes); pos += 2; }]
    started at [pos]; [fuel] bounds the number of passes and [None]
    means the bound was reached. *)
Fixpoint escapeLoop (fuel : nat) (s : string) (pos : nat) : option string :=
  match fuel with
  | O => None
  | S fuel' =>
      match find Exporter.dquote s pos with
      | None => Some s
      | Some found =>
          escapeLoop fuel' (replace1 found twoQuotes s) (found + 2)
      end
  end.

(** Number of occurrences of a character. *)
Fixpoint occurrences (c : ascii) (s : string) : nat :=
  match s with
  | EmptyString => O
  | String a rest =>
      ((if Ascii.eqb a c then 1 else 0) + occurrences c rest)%nat
  end.

End Escape.

(** ** File names of the saves *)

Module Saves.

(** The name [forceSave] builds from the clock. *)
Definition forceSaveName (now : string) : string :=
  Saver.replaceColons ("print_jobs_" +:+ String.substring 0 19 now +:+ ".csv").

End Saves.

(** ** The command loop *)

Module Commands.

(** [::tolower] in the C locale: the capital letters A to Z become small
    letters and every other character is left alone. *)
Definition tolower (c : ascii) : ascii :=
  let n := nat_of_ascii c in
  if (65 <=? n)%nat && (n <=? 90)%nat then ascii_of_nat (n + 32) else c.

(** [std::transform(input.begin(), input.end(), input.begin(), ::tolower)] *)
Fixpoint lowercase (s : string) : string :=
  match s with
  | EmptyString => EmptyString
  | String c rest => String (tolower c) (lowercase rest)
  end.

(** [s.substr(pos)] for [pos] up to the size. *)
Definition substr_from (pos : nat) (s : string) : string :=
  String.substring pos (String.length s - pos) s.

Definition defaultExportName : string := "print_jobs_export.csv".

(** What [commandLoop] does with a line. *)
Inductive Action :=
| DoStart
| DoStop
| DoSave
| DoExport (filename : string)
| AskFilename
| DoStats
| DoHelp
| DoQuit
| DoNothing
| Unknown.

(** The chain of comparisons in [commandLoop], after the line has been
    turned to lower case. *)
Definition dispatch (line : string) : Action :=
  let input := lowercase line in
  if String.eqb input "start" then DoStart
  else if String.eqb input "stop" then DoStop
  else if String.eqb input "save" then DoSave
  else if String.eqb (String.substring 0 6 input) "export" then
    let filename :=
      match Escape.find " "%char input 6 with
      | Some pos => substr_from (pos + 1) input
      | None => defaultExportName
      end in
    if (0 <? String.length filename)%nat then DoExport filename
    else AskFilename
  else if String.eqb input "stats" then DoStats
  else if String.eqb input "help" then DoHelp
  else if String.eqb input "quit" || String.eqb input "exit" then DoQuit
  else if String.eqb input "" then DoNothing
  else Unknown.

End Commands.

(** ** Statistics *)

Module Stats.

(** [statusCount[job.status]++] for every record, in a
    [std::map<std::string, int>]; a status that is not in the map yet
    starts from 0. *)
Definition countStatus (statusCount : gmap string Z) (job : PrintJob)
  : gmap string Z :=
  <[status job := default 0 (statusCount !! status job) + 1]> statusCount.

Definition statusCount (printJobs : list PrintJob) : gmap string Z :=
  foldl countStatus ∅ printJobs.

(** How many records have a given status. *)
Definition withStatus (st : string) (printJobs : list PrintJob) : nat :=
  length (filter (λ job, status job = st) printJobs).

End Stats.

(** ** Starting and stopping the monitor *)

Module Scheduler.

(** What the command thread owns: the global [monitoringActive] and
    whether [monitorThread] is joinable. *)
Record Process := mkProcess {
  flag : bool;
  monitorJoinable : bool
}.

(** A joinable monitor thread goes with a set flag. *)
Definition tidy (p : Process) : Prop :=
  monitorJoinable p = true → flag p = true.

(** The state [main] starts from. *)
Definition initial : Process := mkProcess monitoringActive_initial false.

(** [startMonitoring]. [spawn] is [None] when the thread is created and
    [Some what] when [std::thread] throws with that message. The result
    is [None] when the move assignment finds [monitorThread] joinable,
    which calls [std::terminate]. *)
Definition startMonitoring (spawn : option string) (p : Process)
  : option (Process * list Event) :=
  if flag p then
    Some (p, logMessage "INFO" "Monitoring is already active.")
  else
    match spawn with
    | Some what =>
        Some (mkProcess true (monitorJoinable p),
              logMessage "ERROR" ("Failed to start monitoring thread: " +:+ what))
    | None =>
        if monitorJoinable p then None
        else Some (mkProcess true true,
                   logMessage "INFO" "Print job monitoring started.")
    end.

(** [stopMonitoring]: the flag is cleared and the thread, if joinable,
    is joined. *)
Definition stopMonitoring (p : Process) : Process * list Event :=
  if flag p then
    (mkProcess false false, logMessage "INFO" "Print job monitoring stopped.")
  else (p, logMessage "INFO" "Monitoring is not active.").

(** How the command loop ends: [quit] or [exit] was read, the lines ran
    out with the loop still waiting, or the process was terminated. *)
Inductive Outcome :=
| Exited (p : Process) (notices : list Event)
| Waiting (p : Process) (notices : list Event)
| Terminated.

(** [commandLoop] over the lines read, each with what creating a thread
    would do at that moment. Only the notices of start and stop are
    collected; save, export, stats and help do not touch the flag or the
    thread. *)
Fixpoint commandLoop (inputs : list (string * option string)) (p : Process)
    (notices : list Event) : Outcome :=
  match inputs with
  | [] => Waiting p notices
  | (line, spawn) :: rest =>
      match Commands.dispatch line with
      | Commands.DoStart =>
          match startMonitoring spawn p with
          | Some (p', new) => commandLoop rest p' (notices ++ new)
          | None => Terminated
          end
      | Commands.DoStop =>
          let '(p', new) := stopMonitoring p in
          commandLoop rest p' (notices ++ new)
      | Commands.DoQuit =>
          if flag p then
            let '(p', new) := stopMonitoring p in Exited p' (notices ++ new)
          else Exited p notices
      | _ => commandLoop rest p notices
      end
  end.

(** The part of [main] after the periodic save thread has been created:
    the command loop, then [if (monitoringActive) stopMonitoring()] and
    [monitoringActive = false]. *)
Definition main (inputs : list (string * option string)) : Outcome :=
  match commandLoop inputs initial [] with
  | Exited p notices =>
      let '(p', new) :=
        if flag p then stopMonitoring p else (p, []) in
      Exited (mkProcess false (monitorJoinable p')) (notices ++ new)
  | other => other
  end.

End Scheduler.

(** ** A whole pass of [monitorPrintJobs] *)

(** What the spooler returns for one printer: the name in
    [PRINTER_INFO_2], whether [OpenPrinterA] succeeds and the error code
    if not, the size the first [EnumJobs] asks for, whether the second
    [EnumJobs] succeeds and the error code if not, and the jobs it
    returns. *)
Record PrinterScan := mkPrinterScan {
  pPrinterName : option string;
  opened : bool;
  openError : Z;
  jobBytesNeeded : Z;
  jobsEnumerated : bool;
  jobsError : Z;
  pJobInfo : list JOB_INFO_2
}.

(** What [EnumPrinters] returns in one pass: the size the first call
    asks for, whether the second call succeeds and the error code if
    not, and the printers. *)
Record Enumeration := mkEnumeration {
  bytesNeeded : Z;
  printersEnumerated : bool;
  printersError : Z;
  pPrinterInfo2 : list PrinterScan
}.

(** Mutex [m] is held after the trace, given whether it was before. *)
Fixpoint heldAfter (m : Mutex) (held : bool) (es : list Event) : bool :=
  match es with
  | [] => held
  | Acquire m' :: rest => heldAfter m (Mutex_eqb m m' || held) rest
  | Release m' :: rest => heldAfter m (negb (Mutex_eqb m m') && held) rest
  | _ :: rest => heldAfter m held rest
  end.

(** The store is sound: no pair twice, and at most 1000 records. *)
Definition soundStore (printJobs : list PrintJob) : Prop :=
  NoDup (keyOf <$> printJobs) ∧ (length printJobs ≤ 1000)%nat.

(** Thread [t'] is thread [t] some steps later, and in between nothing
    was written while [jobsMutex] was held and the mutex was given back. *)
Definition extendsQuietly (t t' : Thread) : Prop :=
  (step t ≤ step t')%nat
  ∧ ∃ new, events t' = events t ++ new
           ∧ ioWhileHeld jobsMutex false new = false
           ∧ heldAfter jobsMutex false new = false.

Module Poll.
Section Poll.
Context `{WinSpool}.

(** The vector and the thread, and the number of printer handles that
    are open. *)
Record State := mkState {
  recorded : list PrintJob;
  worker : Thread;
  openHandles : nat
}.

Definition logged (level message : string) (st : State) : State :=
  mkState (recorded st) (emit (logMessage level message) (worker st))
    (openHandles st).

Definition slept (seconds : nat) (st : State) : State :=
  mkState (recorded st) (emit [Sleep seconds] (worker st)) (openHandles st).

(** The body of the loop over the printers. *)
Definition scanPrinter (env : Env) (p : PrinterScan) (st : State) : State :=
  if opened p then
    let st := mkState (recorded st) (worker st) (S (openHandles st)) in
    let st :=
      if 0 <? jobBytesNeeded p then
        if jobsEnumerated p then
          let '(printJobs, t) :=
            Monitor.jobLoop env (pPrinterName p) (pJobInfo p)
              (recorded st, worker st) in
          mkState printJobs t (openHandles st)
        else
          logged "ERROR"
            ("Failed to enumerate jobs. Error: "
             +:+ Normalize.to_string (jobsError p)) st
      else st in
    mkState (recorded st) (worker st) (pred (openHandles st))
  else
    logged "ERROR"
      ("Could not open printer: "
       +:+ Normalize.ansiStringToUtf8 (pPrinterName p)
       +:+ ". Error: " +:+ Normalize.to_string (openError p)) st.

(** [for (DWORD i = 0; i < numPrinters && monitoringActive; ++i)] *)
Fixpoint printerLoop (env : Env) (printers : list PrinterScan) (st : State)
  : State :=
  match printers with
  | [] => st
  | p :: rest =>
      let '(active, t) := readFlag env (worker st) in
      let st := mkState (recorded st) t (openHandles st) in
      if active then printerLoop env rest (scanPrinter env p st) else st
  end.

(** One pass of the body of [while (monitoringActive)]. *)
Definition pollPass (env : Env) (e : Enumeration) (st : State) : State :=
  if bytesNeeded e =? 0 then
    slept 5 (logged "WARN" "No printers found during monitoring cycle" st)
  else if negb (printersEnumerated e) then
    slept 5 (logged "ERROR"
               ("Failed to enumerate printers. Error: "
                +:+ Normalize.to_string (printersError e)) st)
  else
    let st := printerLoop env (pPrinterInfo2 e) st in
    mkState (recorded st) (Saver.sleepLoop env 10 (worker st)) (openHandles st).

(** [monitorPrintJobs]: [spooler] gives what the spooler returns in each
    pass, [pass] counts the passes made, [fuel] bounds their number and
    [None] means the bound was reached before the function returned. *)
Fixpoint monitorPrintJobs (fuel : nat) (env : Env)
    (spooler : nat → Enumeration) (pass : nat) (st : State) : option State :=
  match fuel with
  | O => None
  | S fuel' =>
      let '(active, t) := readFlag env (worker st) in
      let st := mkState (recorded st) t (openHandles st) in
      if active then
        monitorPrintJobs fuel' env spooler (S pass) (pollPass env (spooler pass) st)
      else Some st
  end.

(** The printers whose jobs a pass gets to see: the handle opens, the
    first [EnumJobs] asks for a buffer and the second one succeeds. *)
Definition answers (p : PrinterScan) : bool :=
  opened p && (0 <? jobBytesNeeded p) && jobsEnumerated p.

(** The records a pass offers to the store, in order, were every one
    stamped [stamp]. *)
Definition candidates (stamp : string) (printers : list PrinterScan)
  : list PrintJob :=
  printers ≫= λ p,
    if answers p
    then Normalize.makePrintJob (pPrinterName p) stamp <$> pJobInfo p
    else [].

(** What every part of a pass keeps: a sound store stays sound, the
    thread goes on quietly, and no handle is left open. *)
Definition keeps (st st' : State) : Prop :=
  (soundStore (recorded st) → soundStore (recorded st'))
  ∧ extendsQuietly (worker st) (worker st')
  ∧ openHandles st' = openHandles st.

End Poll.
End Poll.



(** The texts written to the output file, in order. *)
Definition fileWrites (es : list Event) : list string :=
  omap (λ e, match e with FileWrite text => Some text | _ => None end) es.

(** The messages logged at a level, in order. *)
Definition logMessages (level : string) (es : list Event) : list string :=
  omap (λ e, match e with
             | LogWrite l message =>
                 if String.eqb l level then Some message else None
             | _ => None
             end) es.

(** The printers for which a pass logs an error: the handle does not
    open, or it opens and the second [EnumJobs] fails. *)
Definition failing (p : PrinterScan) : bool :=
  negb (opened p) || ((0 <? jobBytesNeeded p) && negb (jobsEnumerated p)).

(** What a stretch of a trace amounts to: the messages at INFO, the
    number of entries at ERROR and the seconds slept. *)
Definition amounts (new : list Event) (infos : list string) (errors sleeps : nat)
  : Prop :=
  logMessages "INFO" new = infos
  ∧ length (logMessages "ERROR" new) = errors
  ∧ Saver.slept new = sleeps.

(** ** More sample data *)

Module MoreSamples.

(** A full store of 1000 records. *)
Definition full : list PrintJob := Samples.office <$> seq 0 1000.

(** The field [He said] followed by [hi] in double quotes. *)
Definition he_said_hi : string := "He said " +:+ Exporter.quoted "hi".

(** The flag is set at the thread's first three steps and clear from
    then on. *)
Definition stopping : Env := mkEnv (λ n, (n <? 3)%nat) (λ _, Samples.stamp).

(** A printer with two jobs, and one that cannot be opened. *)
Definition office_printer : PrinterScan :=
  mkPrinterScan (Some "Office") true 0 64 true 0
    [Samples.spooled 1; Samples.spooled 2].

Definition lobby_printer : PrinterScan :=
  mkPrinterScan (Some "Lobby") false 5 0 false 0 [].

Definition two_printers : Enumeration :=
  mkEnumeration 128 true 0 [lobby_printer; office_printer].

Definition fresh : Poll.State := Poll.mkState [] Samples.idle 0.

(** Three records, two of them printing. *)
Definition three_jobs : list PrintJob :=
  [set_status "Printing" (Samples.office 1);
   set_status "Queued" (Samples.office 2);
   set_status "Printing" (Samples.office 3)].

End MoreSamples.


(** ** Properties of the snapshot store *)

Section StoreFacts.
Import Store.

Implicit Types (job : PrintJob) (s jobs : list PrintJob).

Lemma sameJob_keyOf job e : sameJob job e = true ↔ keyOf e = keyOf job.
Proof.
  unfold sameJob, keyOf. rewrite andb_true_iff, !String.eqb_eq.
  split; [intros [-> ->]; done | intros [= -> ->]; done].
Qed.

Lemma alreadyRecorded_elem s job :
  alreadyRecorded s job = true ↔ keyOf job ∈ keyOf <$> s.
Proof.
  unfold alreadyRecorded. rewrite existsb_exists, list_elem_of_fmap.
  split.
  - intros (e & Hin & He). exists e. apply sameJob_keyOf in He.
    split; [done | by apply list_elem_of_In].
  - intros (e & He & Hin). exists e.
    split; [by apply list_elem_of_In | by apply sameJob_keyOf].
Qed.

Lemma alreadyRecorded_not_elem s job :
  alreadyRecorded s job = false ↔ keyOf job ∉ keyOf <$> s.
Proof.
  rewrite <- alreadyRecorded_elem. destruct (alreadyRecorded s job); naive_solver.
Qed.

Lemma insert_known s job :
  keyOf job ∈ keyOf <$> s → insert_if_novel job s = (Skipped, s).
Proof.
  intros H%alreadyRecorded_elem. unfold insert_if_novel. by rewrite H.
Qed.

Lemma insert_new_room s job :
  keyOf job ∉ keyOf <$> s → (length s < 1000)%nat →
  insert_if_novel job s = (Appended, s ++ [job]).
Proof.
  intros H%alreadyRecorded_not_elem Hlen. unfold insert_if_novel.
  rewrite H. cbv zeta. rewrite length_app. simpl.
  destruct (Nat.ltb_spec 1000 (length s + 1)); [lia | done].
Qed.

Lemma insert_new_full s job :
  keyOf job ∉ keyOf <$> s → (1000 ≤ length s)%nat →
  insert_if_novel job s = (AppendedEvicted, drop 100 (s ++ [job])).
Proof.
  intros H%alreadyRecorded_not_elem Hlen. unfold insert_if_novel.
  rewrite H. cbv zeta. rewrite length_app. simpl.
  destruct (Nat.ltb_spec 1000 (length s + 1)); [done | lia].
Qed.

Lemma insert_NoDup s job :
  NoDup (keyOf <$> s) → NoDup (keyOf <$> (insert_if_novel job s).2).
Proof.
  intros Hs. unfold insert_if_novel.
  destruct (alreadyRecorded s job) eqn:E; [done |].
  apply alreadyRecorded_not_elem in E.
  assert (NoDup (keyOf <$> (s ++ [job]))) as Hp.
  { rewrite fmap_app. apply NoDup_app. split; [done |]. split.
    - intros k Hk [->|[]%elem_of_nil]%elem_of_cons. done.
    - apply NoDup_singleton. }
  cbv zeta. destruct (_ <? _)%nat; simpl; [| done].
  rewrite fmap_drop.
  eapply sublist_NoDup; [exact Hp | apply sublist_drop].
Qed.

Lemma insert_length s job :
  (length s ≤ 1000)%nat → (length (insert_if_novel job s).2 ≤ 1000)%nat.
Proof.
  intros Hs. unfold insert_if_novel.
  destruct (alreadyRecorded s job); [done |].
  cbv zeta. destruct (Nat.ltb_spec 1000 (length (s ++ [job]))) as [H|H]; simpl.
  - rewrite length_drop, length_app. simpl. lia.
  - done.
Qed.

Lemma insert_all_inv (P : list PrintJob → Prop) :
  (∀ s job, P s → P (insert_if_novel job s).2) →
  ∀ jobs s, P s → P (insert_all jobs s).2.
Proof.
  intros Hstep jobs. induction jobs as [|job rest IH]; intros s Hs; [done |].
  simpl. specialize (Hstep s job Hs).
  destruct (insert_if_novel job s) as [p s'].
  specialize (IH s' Hstep). by destruct (insert_all rest s').
Qed.

Lemma insert_all_app jobs1 jobs2 s :
  insert_all (jobs1 ++ jobs2) s =
  ((insert_all jobs1 s).1 ++ (insert_all jobs2 (insert_all jobs1 s).2).1,
   (insert_all jobs2 (insert_all jobs1 s).2).2).
Proof.
  revert s. induction jobs1 as [|job rest IH]; intros s; simpl.
  - by destruct (insert_all jobs2 s).
  - destruct (insert_if_novel job s) as [p s'].
    rewrite IH. by destruct (insert_all rest s').
Qed.

(** New, pairwise distinct records that fit under the high-water mark
    are appended in order and nothing is erased. *)
Lemma insert_all_room jobs : ∀ s,
  NoDup (keyOf <$> jobs) →
  (∀ job, job ∈ jobs → keyOf job ∉ keyOf <$> s) →
  (length s + length jobs ≤ 1000)%nat →
  insert_all jobs s = (replicate (length jobs) Appended, s ++ jobs).
Proof.
  induction jobs as [|job rest IH]; intros s Hnd Hnew Hlen.
  - simpl. by rewrite app_nil_r.
  - simpl in *. apply NoDup_cons in Hnd as [Hjob Hrest].
    rewrite insert_new_room; [| apply Hnew; left | lia].
    rewrite IH; [by rewrite <- app_assoc | done | | rewrite length_app; simpl; lia].
    intros x Hx. rewrite fmap_app, elem_of_app.
    simpl. intros [Hs | Heq%list_elem_of_singleton].
    + apply (Hnew x); [by right | done].
    + apply Hjob. rewrite <- Heq. by apply list_elem_of_fmap_2.
Qed.

Lemma insert_all_NoDup jobs s :
  NoDup (keyOf <$> s) → NoDup (keyOf <$> (insert_all jobs s).2).
Proof. apply (insert_all_inv (λ s, NoDup (keyOf <$> s))). intros. by apply insert_NoDup. Qed.

(** The erasing call in the middle of a run: 100 appends fill the store
    to 1000, the next one goes over and erases, the rest are appended. *)
Lemma insert_all_over s jobs1 job jobs2 :
  NoDup (keyOf <$> (jobs1 ++ job :: jobs2)) →
  (∀ x, x ∈ jobs1 ++ job :: jobs2 → keyOf x ∉ keyOf <$> s) →
  (length s + length jobs1 = 1000)%nat →
  (length jobs2 < 100)%nat →
  insert_all (jobs1 ++ job :: jobs2) s =
  (replicate (length jobs1) Appended ++ AppendedEvicted
     :: replicate (length jobs2) Appended,
   drop 100 (s ++ jobs1 ++ job :: jobs2)).
Proof.
  intros Hnd Hnew Hlen1 Hlen2.
  rewrite fmap_app, fmap_cons in Hnd.
  apply NoDup_app in Hnd as (Hnd1 & Hdisj & [Hjob Hnd2]%NoDup_cons).
  rewrite insert_all_app.
  rewrite (insert_all_room jobs1 s); [| done | | lia].
  2: { intros x Hx. apply Hnew. apply elem_of_app. by left. }
  cbn [fst snd insert_all].
  assert (keyOf job ∉ keyOf <$> (s ++ jobs1)) as Hfresh.
  { rewrite fmap_app, elem_of_app. intros [Hin | Hin].
    - apply (Hnew job); [| done]. apply elem_of_app. right. left.
    - apply (Hdisj _ Hin). left. }
  rewrite insert_new_full; [| done | rewrite length_app; lia].
  rewrite (insert_all_room jobs2); [| done | |].
  - f_equal. rewrite <- drop_app_le by (rewrite !length_app; simpl; lia).
    by rewrite <- !app_assoc.
  - intros x Hx Hin.
    rewrite fmap_drop in Hin. apply (subseteq_drop 100) in Hin.
    rewrite !fmap_app, !elem_of_app in Hin. simpl in Hin.
    destruct Hin as [[Hin | Hin] | Hin%list_elem_of_singleton].
    + apply (Hnew x); [| done]. apply elem_of_app. right. by right.
    + apply (Hdisj _ Hin). right. by apply list_elem_of_fmap_2.
    + apply Hjob. rewrite <- Hin. by apply list_elem_of_fmap_2.
  - rewrite length_drop, !length_app. simpl. lia.
Qed.

End StoreFacts.

(** ** The snapshot store: the stated properties *)

Section StoreClaims.
Import Store.

(** C1. Whatever sequence of records passes through the guarded block,
    starting from the empty vector, the vector never holds two records
    with the same (printer name, job id) pair once a call has finished
    (every prefix of a sequence is itself a sequence); and a record
    whose pair is already stored leaves the vector as it was. *)
Theorem store_never_holds_duplicates (jobs : list PrintJob) :
  NoDup (keyOf <$> (insert_all jobs []).2)
  ∧ ∀ (s : list PrintJob) (job : PrintJob),
      keyOf job ∈ keyOf <$> s → insert_if_novel job s = (Skipped, s).
Proof.
  split.
  - apply insert_all_NoDup. simpl. apply NoDup_nil_2.
  - intros s job. apply insert_known.
Qed.

Lemma store_never_holds_duplicates_witness :
  NoDup (keyOf <$> (insert_all
                      [Samples.office 1; Samples.office 2; Samples.office 1] []).2)
  ∧ insert_if_novel (Samples.office 2) [Samples.office 1; Samples.office 2]
    = (Skipped, [Samples.office 1; Samples.office 2]).
Proof.
  destruct (store_never_holds_duplicates
              [Samples.office 1; Samples.office 2; Samples.office 1])
    as [Hnodup Hskip].
  split; [exact Hnodup |].
  apply Hskip. vm_compute. apply list_elem_of_further, list_elem_of_here.
Defined.

(** C2. Starting from the empty vector, the size is at most 1000 after
    every call of the guarded block. *)
Theorem store_size_at_most_1000 (jobs : list PrintJob) :
  (length (insert_all jobs []).2 ≤ 1000)%nat.
Proof.
  apply (insert_all_inv (λ s, (length s ≤ 1000)%nat)).
  - intros s job. apply insert_length.
  - simpl. lia.
Qed.

(** C3. A vector of 900 records that receives 150 further records, with
    pairs distinct from each other and from the stored ones, ends up
    with exactly the 950 most recent of the 1050: the 100 oldest are
    gone, the survivors keep their order, and the erasure happened once,
    at the 101st arrival, when the size went over 1000. *)
Theorem eviction_900_plus_150 (store arrivals : list PrintJob) :
  length store = 900%nat →
  length arrivals = 150%nat →
  NoDup (keyOf <$> arrivals) →
  (∀ job, job ∈ arrivals → keyOf job ∉ keyOf <$> store) →
  (insert_all arrivals store).2 = drop 100 (store ++ arrivals)
  ∧ (insert_all arrivals store).2 = drop 100 store ++ arrivals
  ∧ length (insert_all arrivals store).2 = 950%nat
  ∧ (insert_all arrivals store).1
    = replicate 100 Appended ++ AppendedEvicted :: replicate 49 Appended
  ∧ evictions (insert_all arrivals store).1 = 1%nat.
Proof.
  intros Hs Ha Hnd Hnew.
  destruct (drop 100 arrivals) as [|job jobs2] eqn:Hd.
  { apply (f_equal length) in Hd. rewrite length_drop in Hd. simpl in Hd. lia. }
  assert (arrivals = take 100 arrivals ++ job :: jobs2) as Hsplit.
  { by rewrite <- Hd, take_drop. }
  assert (length (take 100 arrivals) = 100%nat) as H1.
  { rewrite length_take. lia. }
  assert (length jobs2 = 49%nat) as H2.
  { apply (f_equal length) in Hd. rewrite length_drop in Hd. simpl in Hd. lia. }
  pose proof (insert_all_over store (take 100 arrivals) job jobs2) as Hrun.
  rewrite <- Hsplit, H1, H2 in Hrun.
  rewrite Hrun by (done || lia). cbn [fst snd].
  split; [done |]. split; [by rewrite drop_app_le by lia |].
  split; [rewrite length_drop, length_app; lia |].
  split; reflexivity.
Qed.

Lemma eviction_900_plus_150_witness :
  (insert_all Samples.arrivals Samples.history).2
  = drop 100 Samples.history ++ Samples.arrivals
  ∧ evictions (insert_all Samples.arrivals Samples.history).1 = 1%nat.
Proof.
  pose proof (eviction_900_plus_150 Samples.history Samples.arrivals) as H.
  destruct H as (_ & Hfinal & _ & _ & Hev).
  - reflexivity.
  - reflexivity.
  - compute_done.
  - apply Forall_forall. compute_done.
  - split; assumption.
Defined.

End StoreClaims.

(** ** Normalisation and decoding: the stated properties *)

Section NormalizeFacts.
Context `{WinSpool}.
Import Normalize Decoder.

Lemma flagSet_true x mask : flagSet x mask = true ↔ Z.land x mask ≠ 0.
Proof. unfold flagSet. destruct (Z.eqb_spec (Z.land x mask) 0); naive_solver. Qed.

Lemma flagSet_false x mask : flagSet x mask = false ↔ Z.land x mask = 0.
Proof. unfold flagSet. destruct (Z.eqb_spec (Z.land x mask) 0); naive_solver. Qed.

Lemma to_int_small x : 0 ≤ x < 2 ^ 31 → to_int x = x.
Proof.
  intros Hx. unfold to_int. rewrite Z.mod_small; lia.
Qed.

Lemma to_int_large x : 2 ^ 31 ≤ x < 2 ^ 32 → to_int x = x - 2 ^ 32.
Proof.
  intros Hx. unfold to_int.
  replace (x + 2 ^ 31) with (x - 2 ^ 31 + 1 * 2 ^ 32) by lia.
  rewrite Z_mod_plus_full, Z.mod_small; lia.
Qed.

Lemma to_int_range x : - 2 ^ 31 ≤ to_int x < 2 ^ 31.
Proof.
  unfold to_int. pose proof (Z.mod_pos_bound (x + 2 ^ 31) (2 ^ 32)). lia.
Qed.

(** The members that the [DEVMODE] branch does not assign. *)
Lemma makePrintJob_members name now info :
  let job := makePrintJob name now info in
  printerName job = ansiStringToUtf8 name
  ∧ timestamp job = now
  ∧ status job = mapJobStatus (Status info)
  ∧ pages job = to_int (pageCount info)
  ∧ documentSize job = to_int (Size info)
  ∧ userAccount job = ansiStringToUtf8 (pUserName info)
  ∧ jobId job = to_string (JobId info).
Proof. unfold makePrintJob. by destruct (pDevMode info). Qed.

Lemma firstMatch_member st table :
  firstMatch st table ∈ "Queued" :: table.*2.
Proof.
  induction table as [|[flag name] rest IH]; simpl; [left |].
  destruct (flagSet st flag); [right; left |].
  apply elem_of_cons in IH as [-> | IH]; [left | by do 2 right].
Qed.

Lemma firstMatch_none st table :
  (∀ flag, flag ∈ table.*1 → Z.land st flag = 0) →
  firstMatch st table = "Queued".
Proof.
  induction table as [|[flag name] rest IH]; simpl; intros Hnone; [done |].
  rewrite (proj2 (flagSet_false st flag)) by (apply Hnone; left).
  apply IH. intros f Hf. apply Hnone. by right.
Qed.

End NormalizeFacts.

Section NormalizeClaims.
Context `{WinSpool}.
Import Normalize Decoder.

(** C4. The status chain gives every bitmask one status, the one of the
    first flag that is set in the order Paused, Error, Deleting,
    Spooling, Printing, Offline, Paper Out, Deleted, Blocked, User
    Intervention Required, and Queued when none is; so Paused together
    with Printing gives Paused, and a mask without any of the ten flags
    gives Queued. *)
Theorem status_first_match_in_precedence (st : Z) :
  mapJobStatus st = firstMatch st statusPrecedence
  ∧ mapJobStatus st ∈ "Queued" :: statusPrecedence.*2
  ∧ (Z.land st JOB_STATUS_PAUSED ≠ 0 → Z.land st JOB_STATUS_PRINTING ≠ 0 →
     mapJobStatus st = "Paused")
  ∧ ((∀ flag, flag ∈ statusPrecedence.*1 → Z.land st flag = 0) →
     mapJobStatus st = "Queued").
Proof.
  assert (mapJobStatus st = firstMatch st statusPrecedence) as Heq by reflexivity.
  split; [done |]. split; [rewrite Heq; apply firstMatch_member |]. split.
  - intros Hp%flagSet_true _. unfold mapJobStatus. by rewrite Hp.
  - intros Hnone. rewrite Heq. by apply firstMatch_none.
Qed.

(** C5. A null [DEVMODE] decodes to Unknown in all three functions; a
    [DEVMODE] whose field flag is clear decodes to Unknown for that
    field whatever the field holds; and with the paper-size flag set, a
    paper-size code outside the five known ones decodes to Custom. *)
Theorem decoder_unknown_and_custom :
  (getColorMode None = "Unknown"
   ∧ getDuplexSetting None = "Unknown"
   ∧ getPaperSize None = "Unknown")
  ∧ (∀ dm, Z.land (dmFields dm) DM_COLOR = 0 →
           getColorMode (Some dm) = "Unknown")
  ∧ (∀ dm, Z.land (dmFields dm) DM_DUPLEX = 0 →
           getDuplexSetting (Some dm) = "Unknown")
  ∧ (∀ dm, Z.land (dmFields dm) DM_PAPERSIZE = 0 →
           getPaperSize (Some dm) = "Unknown")
  ∧ (∀ dm, Z.land (dmFields dm) DM_PAPERSIZE ≠ 0 →
           dmPaperSize dm ∉ recognizedPaper →
           getPaperSize (Some dm) = "Custom").
Proof.
  split; [done |].
  split; [intros dm Hf%flagSet_false; simpl; by rewrite Hf |].
  split; [intros dm Hf%flagSet_false; simpl; by rewrite Hf |].
  split; [intros dm Hf%flagSet_false; simpl; by rewrite Hf |].
  intros dm Hf%flagSet_true Hcode. simpl. rewrite Hf.
  unfold recognizedPaper in Hcode.
  repeat (apply not_elem_of_cons in Hcode as [?%Z.eqb_neq Hcode]).
  by repeat match goal with E : (_ =? _) = false |- _ => rewrite E; clear E end.
Qed.

(** How the two counts are stored. The page count is the total pages
    when that is positive and the pages printed otherwise, the size is
    the spooler's size, and each is converted to [int] on its own: a
    value below 2^31 is stored as it is and is non-negative, a value from
    2^31 on is stored less 2^32 and is negative. *)
Lemma normalized_counts_by_member name now info :
  let job := makePrintJob name now info in
  let count := if 0 <? TotalPages info then TotalPages info
               else PagesPrinted info in
  (0 ≤ count < 2 ^ 31 → pages job = count ∧ 0 ≤ pages job)
  ∧ (0 ≤ Size info < 2 ^ 31 →
     documentSize job = Size info ∧ 0 ≤ documentSize job)
  ∧ (2 ^ 31 ≤ count < 2 ^ 32 → pages job = count - 2 ^ 32 ∧ pages job < 0)
  ∧ (2 ^ 31 ≤ Size info < 2 ^ 32 →
     documentSize job = Size info - 2 ^ 32 ∧ documentSize job < 0).
Proof.
  intros job count.
  destruct (makePrintJob_members name now info) as (_ & _ & _ & Hpg & Hsz & _).
  fold job in Hpg, Hsz. rewrite Hpg, Hsz. unfold pageCount. fold count.
  split; [intros Hc; rewrite to_int_small by done; lia |].
  split; [intros Hs; rewrite to_int_small by done; lia |].
  split; [intros Hc; rewrite to_int_large by done; lia |].
  intros Hs. rewrite to_int_large by done. lia.
Qed.

(** C10. A job whose [pDevMode] is null gets no decoded settings: the
    three members keep the empty string of the fresh record, which is
    not what the decoders return for a null pointer. *)
Theorem null_devmode_keeps_settings_empty name now info :
  pDevMode info = None →
  let job := makePrintJob name now info in
  (colorMode job = "" ∧ duplexSetting job = "" ∧ paperSize job = "")
  ∧ colorMode job ≠ getColorMode (pDevMode info)
  ∧ duplexSetting job ≠ getDuplexSetting (pDevMode info)
  ∧ paperSize job ≠ getPaperSize (pDevMode info).
Proof.
  intros Hnull job. unfold job, makePrintJob. rewrite Hnull. simpl. done.
Qed.

End NormalizeClaims.

Section NormalizeExamples.
Import Normalize Decoder.

Lemma status_first_match_in_precedence_witness :
  @mapJobStatus windows_sdk 0x11 = "Paused"
  ∧ @mapJobStatus windows_sdk 0x80 = "Queued".
Proof.
  split.
  - apply (status_first_match_in_precedence (H := windows_sdk) 0x11);
      vm_compute; discriminate.
  - apply (status_first_match_in_precedence (H := windows_sdk) 0x80).
    intros flag Hflag. vm_compute in Hflag.
    repeat (apply elem_of_cons in Hflag as [-> | Hflag]; [reflexivity |]).
    by apply elem_of_nil in Hflag.
Defined.

(** A [DEVMODE] that only declares a paper size, of code 66 (A2). *)
Lemma decoder_unknown_and_custom_witness :
  @getColorMode windows_sdk (Some (mkDEVMODE 0x2 2 1 66)) = "Unknown"
  ∧ @getDuplexSetting windows_sdk (Some (mkDEVMODE 0x2 2 1 66)) = "Unknown"
  ∧ @getPaperSize windows_sdk (Some (mkDEVMODE 0x802 2 1 9)) = "A4"
  ∧ @getPaperSize windows_sdk (Some (mkDEVMODE 0x1800 2 1 9)) = "Unknown"
  ∧ @getPaperSize windows_sdk (Some (mkDEVMODE 0x2 2 1 66)) = "Custom".
Proof.
  destruct (decoder_unknown_and_custom (H := windows_sdk))
    as (_ & Hcolor & Hduplex & Hpaper & Hcustom).
  split; [apply Hcolor; reflexivity |].
  split; [apply Hduplex; reflexivity |].
  split; [reflexivity |].
  split; [apply Hpaper; reflexivity |].
  apply Hcustom; [vm_compute; discriminate |].
  vm_compute. intros Hin.
  repeat (apply elem_of_cons in Hin as [Hin | Hin]; [discriminate Hin |]).
  by apply elem_of_nil in Hin.
Defined.

(** The page count goes the same way as the size: a total page count of
    4,294,967,295 and a spool file of 3,000,000,000 bytes are both stored
    as negative numbers. *)
Lemma normalized_counts_negative :
  let info := mkJOB_INFO_2 7 (Some "alice") None 0 4294967295 3000000000 0 in
  let job := @makePrintJob windows_sdk (Some "Office") Samples.stamp info in
  (is_DWORD (TotalPages info) ∧ is_DWORD (PagesPrinted info)
   ∧ is_DWORD (Size info))
  ∧ pages job = -1
  ∧ documentSize job = -1294967296
  ∧ ¬ (0 ≤ pages job ∧ 0 ≤ documentSize job).
Proof.
  cbv zeta. split; [unfold is_DWORD; simpl; lia |].
  split; [reflexivity |]. split; [reflexivity |].
  vm_compute. intros [Hneg _]. by apply Hneg.
Defined.

(** C9. The record against what is said of it (non-negative counts;
    the member [documentSize] is commented as the size of the document in
    bytes): a job of 5 pages whose spool file has 3,000,000,000 bytes, a
    size the spooler's [DWORD] can hold, gets the page count 5 and the
    document size -1,294,967,296. *)
Theorem large_document_stored_with_negative_size :
  let info := mkJOB_INFO_2 7 (Some "alice") None 0 5 3000000000 0 in
  let job := @makePrintJob windows_sdk (Some "Office") Samples.stamp info in
  (is_DWORD (TotalPages info) ∧ is_DWORD (PagesPrinted info)
   ∧ is_DWORD (Size info))
  ∧ pages job = 5
  ∧ documentSize job = -1294967296
  ∧ ¬ (0 ≤ documentSize job).
Proof.
  cbv zeta. split; [unfold is_DWORD; simpl; lia |].
  split; [reflexivity |]. split; [reflexivity |].
  vm_compute. intros Hneg. by apply Hneg.
Qed.

Lemma null_devmode_keeps_settings_empty_witness :
  colorMode (Samples.office 7) = ""
  ∧ duplexSetting (Samples.office 7) = ""
  ∧ paperSize (Samples.office 7) = "".
Proof.
  apply (null_devmode_keeps_settings_empty (H := windows_sdk) (Some "Office")
           Samples.stamp (Samples.spooled 7)).
  reflexivity.
Defined.

End NormalizeExamples.

(** ** The job loop: what is logged, and where the lock is held *)

Section MonitorFacts.
Context `{WinSpool}.
Import Store Monitor.

Lemma recordJob_unfold env name info store t :
  recordJob env name info (store, t) =
  ((insert_if_novel (builtJob env name info t) store).1,
   ((insert_if_novel (builtJob env name info t) store).2,
    mkThread (S (S (step t))) (events t ++ iterationEvents env name info t))).
Proof.
  unfold recordJob, iterationEvents, builtJob, readClock, readFlag, emit.
  simpl. destruct (insert_if_novel _ store) as [path store']. simpl.
  destruct (monitoringActive env (S (step t))); simpl;
    by rewrite <- !app_assoc.
Qed.

Lemma iterationEvents_logs env name info t :
  logsAt "INFO" (iterationEvents env name info t)
  = monitoringActive env (S (step t)).
Proof.
  unfold iterationEvents. by destruct (monitoringActive env (S (step t))).
Qed.

Lemma iterationEvents_lock env name info t :
  ioWhileHeld jobsMutex false (iterationEvents env name info t) = false.
Proof.
  unfold iterationEvents. by destruct (monitoringActive env (S (step t))).
Qed.

End MonitorFacts.

Section MonitorClaims.
Context `{WinSpool}.
Import Store Monitor.

(** C6, as amended. In one iteration of the job loop the info entry is
    written exactly when [monitoringActive] is set after the guarded
    block, whichever branch the block took; so a job whose pair is
    already stored is skipped by the block and, while monitoring is
    active, logged again. *)
Theorem job_logged_iff_monitoring_active env name info store t :
  let job := builtJob env name info t in
  let r := recordJob env name info (store, t) in
  let new := drop (length (events t)) (events r.2.2) in
  r.1 = (insert_if_novel job store).1
  ∧ r.2.1 = (insert_if_novel job store).2
  ∧ (logsAt "INFO" new = true ↔ monitoringActive env (S (step t)) = true)
  ∧ (keyOf job ∈ keyOf <$> store →
     monitoringActive env (S (step t)) = true →
     r.1 = Skipped ∧ r.2.1 = store ∧ logsAt "INFO" new = true).
Proof.
  cbv zeta. rewrite recordJob_unfold. cbn [fst snd events].
  rewrite drop_app_length, iterationEvents_logs.
  split; [done |]. split; [done |]. split; [done |].
  intros Hknown Hflag. by rewrite (insert_known _ _ Hknown).
Qed.

End MonitorClaims.

Section MonitorExamples.
Import Store Monitor.

(** C6, as stated, fails: a job already stored by an earlier pass is
    not inserted by the next one, and yet its info entry is written
    again. *)
Lemma seen_job_logged_again :
  let first := @jobLoop windows_sdk Samples.running (Some "Office")
                 [Samples.spooled 7] ([], Samples.idle) in
  let r := @recordJob windows_sdk Samples.running (Some "Office")
             (Samples.spooled 7) first in
  let new := drop (length (events first.2)) (events r.2.2) in
  first.1 = [Samples.office 7]
  ∧ inserted r.1 = false
  ∧ r.2.1 = first.1
  ∧ logsAt "INFO" new = true
  ∧ ¬ (logsAt "INFO" new = true ↔ inserted r.1 = true).
Proof.
  cbv zeta. split; [reflexivity |]. split; [reflexivity |].
  split; [reflexivity |]. split; [reflexivity |].
  vm_compute. intros [Hlog _]. discriminate (Hlog eq_refl).
Defined.

Lemma job_logged_iff_monitoring_active_witness :
  let r := @recordJob windows_sdk Samples.running (Some "Office")
             (Samples.spooled 7) ([Samples.office 7], Samples.idle) in
  r.1 = Skipped
  ∧ r.2.1 = [Samples.office 7]
  ∧ logsAt "INFO" (drop (length (events Samples.idle)) (events r.2.2)) = true.
Proof.
  apply (job_logged_iff_monitoring_active (H := windows_sdk) Samples.running
           (Some "Office") (Samples.spooled 7) [Samples.office 7] Samples.idle).
  - vm_compute. apply list_elem_of_here.
  - reflexivity.
Defined.

End MonitorExamples.

(** ** Export: the lock is held across the file output *)

Section ExportClaims.
Context `{WinSpool}.
Import Exporter Monitor.

Lemma Forall_not_lock_rows (rows : list PrintJob) :
  Forall (λ e, ¬ lockEvent jobsMutex e) (FileWrite ∘ csvRow <$> rows).
Proof.
  apply Forall_fmap, Forall_true. intros job [E | E]; discriminate E.
Qed.

Lemma ioWhileHeld_open m filename rest :
  ioWhileHeld m false (Acquire m :: FileOpen filename :: rest) = true.
Proof. by destruct m. Qed.

(** C7, as amended. [exportToCSV] takes [jobsMutex] first and releases
    it last, and does not release it in between: opening the file,
    writing a row for every record of the vector, closing the file and
    logging all happen while the mutex is held. In the job loop the
    mutex is held for the scan and insertion only, and nothing is
    written while it is held. *)
Theorem export_holds_lock_throughout (opens : bool) (filename : string)
    (printJobs : list PrintJob) :
  (∃ body,
      (exportToCSV opens filename printJobs).2
      = Acquire jobsMutex :: body ++ [Release jobsMutex]
      ∧ Forall (λ e, ¬ lockEvent jobsMutex e) body
      ∧ FileOpen filename ∈ body
      ∧ Forall (λ job, FileWrite (csvRow job) ∈ body)
          (if opens then printJobs else [])
      ∧ logsAt (if opens then "INFO" else "ERROR") body = true)
  ∧ ioWhileHeld jobsMutex false (exportToCSV opens filename printJobs).2 = true
  ∧ ∀ env name info store t,
      ioWhileHeld jobsMutex false
        (drop (length (events t))
           (events (recordJob env name info (store, t)).2.2)) = false.
Proof.
  split; [| split].
  - destruct opens.
    + exists (FileOpen filename :: FileWrite csvHeader
              :: (FileWrite ∘ csvRow <$> printJobs)
              ++ FileClose
              :: logMessage "INFO" (exportedMessage filename (length printJobs))).
      split; [unfold exportToCSV; simpl; rewrite <- app_assoc; reflexivity |].
      split.
      { do 2 (apply Forall_cons; split; [intros [E | E]; discriminate E |]).
        apply Forall_app. split; [apply Forall_not_lock_rows |].
        repeat (apply Forall_cons; split; [intros [E | E]; discriminate E |]).
        apply Forall_nil_2. }
      split; [left |].
      split.
      { apply Forall_forall. intros job Hjob. do 2 right.
        apply elem_of_app. left.
        apply (list_elem_of_fmap_2 (FileWrite ∘ csvRow)), Hjob. }
      unfold logsAt. rewrite existsb_exists. eexists (LogWrite "INFO" _).
      split; [| reflexivity].
      right. right. apply in_or_app. right. right. right. left. reflexivity.
    + exists (FileOpen filename :: logMessage "ERROR" (cannotOpenMessage filename)).
      split; [reflexivity |].
      split.
      { repeat (apply Forall_cons; split; [intros [E | E]; discriminate E |]).
        apply Forall_nil_2. }
      split; [left |]. split; [apply Forall_nil_2 | reflexivity].
  - unfold exportToCSV. destruct opens; apply ioWhileHeld_open.
  - intros env name info store t. rewrite recordJob_unfold. cbn [fst snd events].
    rewrite drop_app_length. apply iterationEvents_lock.
Qed.

End ExportClaims.

Section ExportExamples.
Import Exporter.

(** C7, as stated, fails: the export of one record opens and writes the
    file, and logs, between taking [jobsMutex] and releasing it. *)
Lemma export_writes_under_lock :
  (exportToCSV true "print_jobs_export.csv" [Samples.office 7]).2
  = [Acquire jobsMutex;
     FileOpen "print_jobs_export.csv";
     FileWrite csvHeader;
     FileWrite (csvRow (Samples.office 7));
     FileClose;
     Acquire logMutex;
     LogWrite "INFO" "Data exported to: print_jobs_export.csv (1 records)";
     Release logMutex;
     Release jobsMutex]
  ∧ ¬ (ioWhileHeld jobsMutex false
         (exportToCSV true "print_jobs_export.csv" [Samples.office 7]).2 = false).
Proof.
  split; [reflexivity |]. vm_compute. discriminate.
Defined.

End ExportExamples.

(** ** Periodic save *)

Section SaverFacts.
Import Saver.

Lemma sleepLoop_active env n : ∀ t,
  (∀ k, (k < n)%nat → monitoringActive env (step t + k) = true) →
  sleepLoop env n t
  = mkThread (step t + n) (events t ++ replicate n (Sleep 1)).
Proof.
  induction n as [|n IH]; intros t Hflag.
  - destruct t as [s es]. cbn [sleepLoop step events replicate].
    by rewrite Nat.add_0_r, app_nil_r.
  - cbn [sleepLoop readFlag].
    rewrite <- (Nat.add_0_r (step t)) at 1. rewrite Hflag by lia.
    rewrite IH.
    + cbn [emit step events replicate]. f_equal; [lia |].
      by rewrite <- app_assoc.
    + intros k Hk. cbn [emit step].
      replace (S (step t) + k)%nat with (step t + S k)%nat by lia.
      apply Hflag. lia.
Qed.

Lemma periodicSave_unfold fuel env t :
  periodicSave (S fuel) env t =
  if monitoringActive env (step t) then
    let t1 := sleepLoop env 1800 (mkThread (S (step t)) (events t)) in
    periodicSave fuel env
      (if monitoringActive env (step t1)
       then mkThread (S (S (step t1)))
              (events t1
               ++ [CallExport (autoSaveName (getCurrentTimestamp env (S (step t1))))])
       else mkThread (S (step t1)) (events t1))
  else Some (mkThread (S (step t)) (events t)).
Proof.
  cbn [periodicSave readFlag].
  destruct (monitoringActive env (step t)); [| done].
  cbv zeta.
  destruct (monitoringActive env (step (sleepLoop env 1800 _))); reflexivity.
Qed.

(** A pass of the loop that finds the flag set all along sleeps 1800
    times one second and then exports once. *)
Lemma periodicSave_pass_while_active fuel env t :
  (∀ k, (k ≤ 1801)%nat → monitoringActive env (step t + k) = true) →
  periodicSave (S fuel) env t
  = periodicSave fuel env
      (mkThread (step t + 1803)
         (events t ++ replicate 1800 (Sleep 1)
          ++ [CallExport (autoSaveName (getCurrentTimestamp env (step t + 1802)))])).
Proof.
  intros Hflag. rewrite periodicSave_unfold.
  rewrite <- (Nat.add_0_r (step t)) at 1. rewrite Hflag by lia.
  cbv zeta. rewrite sleepLoop_active.
  2: { intros k Hk. cbn [step].
       replace (S (step t) + k)%nat with (step t + S k)%nat by lia.
       apply Hflag. lia. }
  cbn [step events].
  replace (S (step t) + 1800)%nat with (step t + 1801)%nat by lia.
  rewrite Hflag by lia.
  rewrite <- app_assoc, <- !Nat.add_succ_r. reflexivity.
Qed.

End SaverFacts.

Section SaverClaims.
Import Saver.

(** C8. [periodicSave] as [main] starts it: when the thread's first
    look at [monitoringActive] finds the initial value of the global,
    the function returns at once, without a sleep and without an export,
    whatever the flag does afterwards. *)
Theorem periodic_save_returns_before_start env fuel t :
  monitoringActive env (step t) = monitoringActive_initial →
  periodicSave (S fuel) env t = Some (mkThread (S (step t)) (events t))
  ∧ ∀ t', periodicSave (S fuel) env t = Some t' →
          exports (events t') = exports (events t)
          ∧ slept (events t') = slept (events t).
Proof.
  intros Hflag. rewrite periodicSave_unfold, Hflag.
  unfold monitoringActive_initial.
  split; [done |]. by intros t' [= <-].
Qed.

Lemma periodic_save_returns_before_start_witness :
  periodicSave 1 Samples.started_later Samples.idle = Some (mkThread 1 [])
  ∧ ∀ t', periodicSave 1 Samples.started_later Samples.idle = Some t' →
          exports (events t') = exports (events Samples.idle)
          ∧ slept (events t') = slept (events Samples.idle).
Proof.
  apply (periodic_save_returns_before_start Samples.started_later 0 Samples.idle).
  reflexivity.
Defined.

(** Had the flag been set when the thread started, the first pass would
    have slept 1800 seconds and exported. *)
Example periodic_save_first_pass_when_running (fuel : nat) :
  periodicSave (S fuel) Samples.running Samples.idle
  = periodicSave fuel Samples.running
      (mkThread 1803
         (replicate 1800 (Sleep 1)
          ++ [CallExport "print_jobs_auto_save_2024-05-01T10-00-00.csv"])).
Proof.
  rewrite periodicSave_pass_while_active by done. reflexivity.
Qed.

End SaverClaims.

(** ** More on the snapshot store *)

Section StoreMore.
Import Store.

Implicit Types (job : PrintJob) (s jobs : list PrintJob).

Lemma insert_result_cases s job :
  (insert_if_novel job s = (Skipped, s) ∧ keyOf job ∈ keyOf <$> s)
  ∨ (insert_if_novel job s = (Appended, s ++ [job])
     ∧ (keyOf job ∉ keyOf <$> s) ∧ (length s < 1000)%nat)
  ∨ (insert_if_novel job s = (AppendedEvicted, drop 100 s ++ [job])
     ∧ (keyOf job ∉ keyOf <$> s) ∧ (1000 ≤ length s)%nat).
Proof.
  destruct (alreadyRecorded s job) eqn:E.
  - left. apply alreadyRecorded_elem in E. by rewrite insert_known.
  - right. apply alreadyRecorded_not_elem in E.
    destruct (Nat.lt_ge_cases (length s) 1000) as [Hlt | Hge].
    + left. by rewrite insert_new_room.
    + right. rewrite insert_new_full by done.
      by rewrite drop_app_le by lia.
Qed.

Lemma insert_all_one s job :
  (insert_all [job] s).2 = (insert_if_novel job s).2.
Proof. simpl. by destruct (insert_if_novel job s). Qed.

(** X1. Whatever the vector holds, once the guarded block has run for a
    record its pair is found by the scan, so running the block again for
    the same record, as the next poll of a pending job does, skips it and
    leaves the vector as it is. *)
Theorem insert_twice_is_insert_once s job :
  alreadyRecorded (insert_if_novel job s).2 job = true
  ∧ insert_if_novel job (insert_if_novel job s).2
    = (Skipped, (insert_if_novel job s).2).
Proof.
  assert (keyOf job ∈ keyOf <$> (insert_if_novel job s).2) as Hin.
  { destruct (insert_result_cases s job) as [[-> ?] | [[-> ?] | [-> ?]]];
      cbn [snd]; [done | |];
      rewrite fmap_app; apply elem_of_app; right; apply list_elem_of_here. }
  split; [by apply alreadyRecorded_elem | by apply insert_known].
Qed.

(** X2. The vector after any sequence of calls is a tail of the old
    vector followed by the accepted records in their order of arrival:
    records are removed at the old end only, and never reordered or
    changed. *)
Theorem insert_all_keeps_a_tail jobs : ∀ s,
  ∃ accepted,
    accepted `sublist_of` jobs
    ∧ (insert_all jobs s).2 `suffix_of` s ++ accepted.
Proof.
  induction jobs as [|job rest IH]; intros s.
  - exists []. split; [done |]. simpl. by rewrite app_nil_r.
  - simpl. destruct (insert_result_cases s job) as [[E ?] | [[E ?] | [E ?]]];
      rewrite E; destruct (IH (insert_if_novel job s).2) as (acc & Hsub & Hsuf);
      rewrite E in Hsuf; cbn [snd] in Hsuf;
      destruct (insert_all rest _) as [ps final]; cbn [snd] in *.
    + exists acc. split; [by apply sublist_cons | done].
    + exists (job :: acc). split; [by apply sublist_skip |].
      by rewrite <- app_assoc in Hsuf.
    + exists (job :: acc). split; [by apply sublist_skip |].
      replace (s ++ job :: acc) with ((s ++ [job]) ++ acc)
        by (by rewrite <- app_assoc).
      etrans; [exact Hsuf |]. do 2 apply suffix_app. apply suffix_drop.
Qed.

(** X3. Closed form. When records with pairs distinct from each other
    and from the stored ones arrive at a vector of at most 1000 records,
    the vector afterwards is the old vector followed by the arrivals with
    the oldest [100 * ((total - 901) / 100)] records removed, [total]
    being the number of records old and new. *)
Theorem insert_all_closed_form jobs : ∀ s,
  (length s ≤ 1000)%nat →
  NoDup (keyOf <$> jobs) →
  (∀ job, job ∈ jobs → keyOf job ∉ keyOf <$> s) →
  (insert_all jobs s).2
  = drop (100 * ((length s + length jobs - 901) / 100)) (s ++ jobs).
Proof.
  induction jobs as [|job rest IH] using rev_ind; intros s Hs Hnd Hnew.
  - cbn [insert_all snd length]. rewrite app_nil_r, Nat.add_0_r.
    rewrite Nat.div_small by lia. reflexivity.
  - rewrite fmap_app in Hnd. apply NoDup_app in Hnd as (Hnd & Hdisj & _).
    rewrite insert_all_app. cbn [snd fst].
    rewrite IH; [| done | done |].
    2: { intros x Hx. apply Hnew, elem_of_app. by left. }
    set (n := (length s + length rest)%nat).
    set (k := ((n - 901) / 100)%nat).
    assert (100 * k ≤ n - 901 < 100 * k + 100)%nat as Hk.
    { unfold k. pose proof (Nat.div_mod_eq (n - 901) 100).
      pose proof (Nat.mod_upper_bound (n - 901) 100). lia. }
    assert (keyOf job ∉ keyOf <$> drop (100 * k) (s ++ rest)) as Hfresh.
    { intros Hin. rewrite fmap_drop in Hin. apply (subseteq_drop (100 * k)) in Hin.
      rewrite fmap_app, elem_of_app in Hin. destruct Hin as [Hin | Hin].
      - apply (Hnew job); [| done]. apply elem_of_app. right. apply list_elem_of_here.
      - apply (Hdisj _ Hin). simpl. apply list_elem_of_here. }
    assert (length (drop (100 * k) (s ++ rest)) = (n - 100 * k)%nat) as Hlen.
    { rewrite length_drop, length_app. done. }
    rewrite length_app. simpl length.
    replace (length s + (length rest + 1))%nat with (n + 1)%nat by lia.
    rewrite insert_all_one.
    destruct (Nat.lt_ge_cases (n - 100 * k) 1000) as [Hroom | Hfull].
    + rewrite insert_new_room; [| done | rewrite Hlen; lia]. cbn [snd].
      replace ((n + 1 - 901) / 100)%nat with k.
      * rewrite app_assoc. rewrite (drop_app_le (s ++ rest)); [done |].
        rewrite length_app. lia.
      * apply (Nat.div_unique _ _ _ (n + 1 - 901 - 100 * k)); lia.
    + rewrite insert_new_full; [| done | rewrite Hlen; lia]. cbn [snd].
      replace ((n + 1 - 901) / 100)%nat with (S k).
      * rewrite <- (drop_app_le (s ++ rest)) by (rewrite length_app; lia).
        rewrite drop_drop, <- app_assoc. f_equal. lia.
      * apply (Nat.div_unique _ _ _ (n + 1 - 901 - 100 * S k)); lia.
Qed.

(** X4. Eviction forgets. When a new record arrives at a full vector of
    1000 records with distinct pairs, the 100 oldest records are no
    longer found by the scan afterwards, so the same jobs would be
    recorded again. *)
Theorem eviction_forgets_oldest s job old :
  length s = 1000%nat →
  NoDup (keyOf <$> s) →
  keyOf job ∉ keyOf <$> s →
  old ∈ take 100 s →
  alreadyRecorded (insert_if_novel job s).2 old = false
  ∧ inserted (insert_if_novel old (insert_if_novel job s).2).1 = true.
Proof.
  intros Hlen Hnd Hnew Hold.
  assert (keyOf old ∉ keyOf <$> (insert_if_novel job s).2) as Hgone.
  { rewrite insert_new_full by (done || lia). cbn [snd].
    rewrite drop_app_le by lia. rewrite fmap_app, elem_of_app.
    rewrite <- (take_drop 100 s), fmap_app in Hnd.
    apply NoDup_app in Hnd as (_ & Hdisj & _).
    intros [Hin | Hin].
    - rewrite fmap_drop in Hin. apply (Hdisj (keyOf old)); [| by rewrite fmap_drop].
      by apply list_elem_of_fmap_2.
    - simpl in Hin. apply list_elem_of_singleton in Hin.
      apply Hnew. rewrite <- Hin. apply list_elem_of_fmap_2.
      by apply (subseteq_take 100). }
  split; [by apply alreadyRecorded_not_elem |].
  destruct (insert_result_cases (insert_if_novel job s).2 old)
    as [[_ ?] | [[-> _] | [-> _]]]; done.
Qed.

End StoreMore.

(** ** More on normalisation and decoding *)

Section NormalizeMore.
Context `{WinSpool}.
Import Normalize Decoder.

Lemma to_string_inj (a b : Z) :
  0 ≤ a → 0 ≤ b → to_string a = to_string b → a = b.
Proof.
  intros Ha Hb Heq. unfold to_string in Heq.
  assert (∀ n, N.to_uint n ≠ Decimal.Nil) as Hnonnil.
  { intros [|p]; [discriminate | apply DecimalPos.Unsigned.to_uint_nonnil]. }
  assert (N.to_uint (Z.to_N a) = N.to_uint (Z.to_N b)) as Hd.
  { apply (f_equal NilZero.uint_of_string) in Heq.
    rewrite !NilZero.usu in Heq by apply Hnonnil. by injection Heq. }
  apply DecimalN.Unsigned.to_uint_inj in Hd. lia.
Qed.

(** X5. Two observations get the same deduplication pair exactly when
    the printer names agree (a null name counting as the empty name) and
    the spooler's job identifiers agree; the time stamp, the status and
    every other member play no part. *)
Theorem same_key_iff_same_printer_and_id name name' now now' info info' :
  0 ≤ JobId info → 0 ≤ JobId info' →
  keyOf (makePrintJob name now info) = keyOf (makePrintJob name' now' info')
  ↔ ansiStringToUtf8 name = ansiStringToUtf8 name' ∧ JobId info = JobId info'.
Proof.
  intros Hid Hid'. unfold keyOf.
  destruct (makePrintJob_members name now info) as (-> & _ & _ & _ & _ & _ & ->).
  destruct (makePrintJob_members name' now' info') as (-> & _ & _ & _ & _ & _ & ->).
  split.
  - intros [= Hn Hj]. split; [done | by apply to_string_inj].
  - intros [-> ->]. done.
Qed.

(** X6. The three settings members of a built record come from closed
    sets of strings, and they are empty together: all three are empty
    when the job has no [DEVMODE], and none is when it has one. *)
Theorem settings_members_closed_sets name now info :
  let job := makePrintJob name now info in
  colorMode job ∈ [""; "Color"; "Monochrome"; "Unknown"]
  ∧ duplexSetting job
    ∈ [""; "Simplex"; "Duplex Vertical"; "Duplex Horizontal"; "Unknown"]
  ∧ paperSize job
    ∈ [""; "Letter"; "Legal"; "A4"; "A3"; "A5"; "Custom"; "Unknown"]
  ∧ (colorMode job = "" ↔ pDevMode info = None)
  ∧ (duplexSetting job = "" ↔ pDevMode info = None)
  ∧ (paperSize job = "" ↔ pDevMode info = None).
Proof.
  cbv zeta. unfold makePrintJob.
  destruct (pDevMode info) as [dm|]; cbn.
  - repeat match goal with |- context [if ?b then _ else _] => destruct b end;
      repeat split; try discriminate;
      repeat (first [apply list_elem_of_here | apply list_elem_of_further]).
  - repeat split; try done; apply list_elem_of_here.
Qed.

(** X7. What a decoded value tells about the [DEVMODE]: Color means the
    colour flag is set and the colour is [DMCOLOR_COLOR]; Monochrome
    means the flag is set and the colour is anything else; Unknown means
    the flag is clear. For the paper size, Custom means the flag is set
    and the code is none of the five known ones, and Unknown that the
    flag is clear. For the duplex mode an unknown code under a set flag
    gives Unknown, as a clear flag does. *)
Theorem decoded_values_characterised (dm : DEVMODE) :
  (getColorMode (Some dm) = "Color"
   ↔ Z.land (dmFields dm) DM_COLOR ≠ 0 ∧ dmColor dm = DMCOLOR_COLOR)
  ∧ (getColorMode (Some dm) = "Monochrome"
     ↔ Z.land (dmFields dm) DM_COLOR ≠ 0 ∧ dmColor dm ≠ DMCOLOR_COLOR)
  ∧ (getColorMode (Some dm) = "Unknown" ↔ Z.land (dmFields dm) DM_COLOR = 0)
  ∧ (getPaperSize (Some dm) = "Custom"
     ↔ Z.land (dmFields dm) DM_PAPERSIZE ≠ 0 ∧ dmPaperSize dm ∉ recognizedPaper)
  ∧ (getPaperSize (Some dm) = "Unknown" ↔ Z.land (dmFields dm) DM_PAPERSIZE = 0)
  ∧ (getDuplexSetting (Some dm) = "Unknown"
     ↔ Z.land (dmFields dm) DM_DUPLEX = 0
       ∨ dmDuplex dm ∉ [DMDUP_SIMPLEX; DMDUP_VERTICAL; DMDUP_HORIZONTAL]).
Proof.
  unfold getColorMode, getPaperSize, getDuplexSetting, recognizedPaper.
  rewrite <- !flagSet_true, <- !flagSet_false.
  rewrite !not_elem_of_cons, !elem_of_nil.
  split; [| split].
  - destruct (flagSet _ DM_COLOR), (Z.eqb_spec (dmColor dm) DMCOLOR_COLOR);
      intuition (congruence || discriminate).
  - destruct (flagSet _ DM_COLOR), (Z.eqb_spec (dmColor dm) DMCOLOR_COLOR);
      intuition (congruence || discriminate).
  - split; [| split; [| split]].
    + destruct (flagSet _ DM_COLOR), (Z.eqb_spec (dmColor dm) DMCOLOR_COLOR);
        intuition (congruence || discriminate).
    + destruct (flagSet _ DM_PAPERSIZE);
        repeat match goal with
          | |- context [?a =? ?b] => destruct (Z.eqb_spec a b)
          end;
        intuition (congruence || discriminate).
    + destruct (flagSet _ DM_PAPERSIZE);
        repeat match goal with
          | |- context [?a =? ?b] => destruct (Z.eqb_spec a b)
          end;
        intuition (congruence || discriminate).
    + destruct (flagSet _ DM_DUPLEX);
        repeat match goal with
          | |- context [?a =? ?b] => destruct (Z.eqb_spec a b)
          end;
        intuition (congruence || discriminate).
Qed.

End NormalizeMore.

(** ** The quote-doubling loop *)

Section EscapeFacts.
Import Escape Exporter.

Lemma str_app_nil (s : string) : "" +:+ s = s.
Proof. reflexivity. Qed.

Lemma str_app_cons (a : ascii) (s t : string) :
  String a s +:+ t = String a (s +:+ t).
Proof. reflexivity. Qed.

Lemma str_app_assoc (a b c : string) : (a +:+ b) +:+ c = a +:+ b +:+ c.
Proof.
  induction a as [|x a IH]; [done |]. by rewrite !str_app_cons, IH.
Qed.

Lemma str_length_app (a b : string) :
  String.length (a +:+ b) = (String.length a + String.length b)%nat.
Proof.
  induction a as [|x a IH]; [done |]. rewrite str_app_cons. simpl. by rewrite IH.
Qed.

Lemma find_skip c (pre suf : string) :
  find c (pre +:+ suf) (String.length pre)
  = option_map (λ i, (String.length pre + i)%nat) (find c suf 0).
Proof.
  induction pre as [|a pre IH].
  - rewrite str_app_nil. simpl. by destruct (find c suf 0).
  - rewrite str_app_cons. simpl. rewrite IH. by destruct (find c suf 0).
Qed.

Lemma find_none c s : find c s 0 = None → occurrences c s = 0%nat.
Proof.
  induction s as [|a s IH]; simpl; [done |].
  destruct (Ascii.eqb a c); [done |].
  destruct (find c s 0); [done | auto].
Qed.

Lemma escapeQuotes_clean s : occurrences dquote s = 0%nat → escapeQuotes s = s.
Proof.
  induction s as [|a s IH]; simpl; [done |].
  destruct (Ascii.eqb a dquote); [done |]. intros Hs. by rewrite IH.
Qed.

(** The first occurrence splits the string. *)
Lemma find_some c s i :
  find c s 0 = Some i →
  ∃ a b, s = a +:+ String c b ∧ String.length a = i ∧ occurrences c a = 0%nat.
Proof.
  revert i. induction s as [|x s IH]; simpl; intros i; [done |].
  destruct (Ascii.eqb_spec x c) as [-> | Hne].
  - intros [= <-]. by exists "", s.
  - destruct (find c s 0) as [j|]; [| done]. intros [= <-].
    destruct (IH j eq_refl) as (a & b & -> & <- & Ha).
    exists (String x a), b. simpl.
    destruct (Ascii.eqb_spec x c); [done |]. by rewrite Ha.
Qed.

Lemma replace1_at (pre : string) x str suf :
  replace1 (String.length pre) str (pre +:+ String x suf) = pre +:+ str +:+ suf.
Proof.
  induction pre as [|a pre IH]; [done |].
  rewrite !str_app_cons. simpl. by rewrite IH.
Qed.

Lemma escapeQuotes_app a b :
  occurrences dquote a = 0%nat →
  escapeQuotes (a +:+ b) = a +:+ escapeQuotes b.
Proof.
  induction a as [|x a IH]; [done |]. rewrite !str_app_cons. simpl.
  destruct (Ascii.eqb x dquote); [done |]. intros Ha. by rewrite IH.
Qed.

Lemma occurrences_app c a b :
  occurrences c (a +:+ b) = (occurrences c a + occurrences c b)%nat.
Proof.
  induction a as [|x a IH]; [done |]. rewrite str_app_cons. simpl.
  rewrite IH. lia.
Qed.

Lemma occurrences_escapeQuotes s :
  occurrences dquote (escapeQuotes s) = (2 * occurrences dquote s)%nat.
Proof.
  induction s as [|a s IH]; simpl; [done |].
  destruct (Ascii.eqb a dquote) eqn:E; simpl.
  - rewrite ?Ascii.eqb_refl, IH. lia.
  - rewrite E, IH. lia.
Qed.

Lemma length_escapeQuotes s :
  String.length (escapeQuotes s)
  = (String.length s + occurrences dquote s)%nat.
Proof.
  induction s as [|a s IH]; simpl; [done |].
  destruct (Ascii.eqb a dquote); simpl; rewrite IH; lia.
Qed.

(** The loop, resumed after a prefix it has dealt with, finishes the
    rest, given one pass per quote left and one more. *)
Lemma escapeLoop_resume fuel : ∀ pre suf,
  (occurrences dquote suf < fuel)%nat →
  escapeLoop fuel (pre +:+ suf) (String.length pre)
  = Some (pre +:+ escapeQuotes suf).
Proof.
  induction fuel as [|fuel IH]; intros pre suf Hfuel; [lia |].
  cbn [escapeLoop]. rewrite find_skip.
  destruct (find dquote suf 0) as [i|] eqn:Hfind; cbn [option_map].
  - destruct (find_some _ _ _ Hfind) as (a & b & -> & <- & Ha).
    rewrite <- str_length_app, <- str_app_assoc, replace1_at.
    rewrite escapeQuotes_app by done. simpl escapeQuotes.
    rewrite ?Ascii.eqb_refl.
    replace (String.length (pre +:+ a) + 2)%nat
      with (String.length ((pre +:+ a) +:+ twoQuotes)).
    2: { rewrite !str_length_app. simpl. lia. }
    rewrite <- (str_app_assoc (pre +:+ a) twoQuotes b), IH.
    + by rewrite !str_app_assoc.
    + rewrite occurrences_app in Hfuel. simpl in Hfuel.
      rewrite ?Ascii.eqb_refl in Hfuel. lia.
  - by rewrite (escapeQuotes_clean suf (find_none _ _ Hfind)).
Qed.

(** X8. The find-and-replace loop of [exportToCSV] ends after one pass
    per double quote of the field plus one, and leaves the field with
    every double quote doubled and nothing else changed. *)
Theorem escape_loop_doubles_every_quote (s : string) (fuel : nat) :
  (occurrences dquote s < fuel)%nat →
  escapeLoop fuel s 0 = Some (escapeQuotes s).
Proof. intros Hfuel. by apply (escapeLoop_resume fuel "" s). Qed.

Lemma escapeQuotes_inj s : ∀ s', escapeQuotes s = escapeQuotes s' → s = s'.
Proof.
  induction s as [|a s IH]; intros [|a' s']; simpl.
  - done.
  - by destruct (Ascii.eqb a' dquote).
  - by destruct (Ascii.eqb a dquote).
  - destruct (Ascii.eqb_spec a dquote) as [-> | Ha],
      (Ascii.eqb_spec a' dquote) as [-> | Ha'].
    + intros [= E]. by rewrite (IH s' E).
    + intros [= E1 E2]. congruence.
    + intros [= E1 E2]. congruence.
    + intros [= -> E]. by rewrite (IH s' E).
Qed.

(** X9. Escaping loses nothing and adds only quotes: different fields
    stay different, the escaped field is longer by the number of double
    quotes it had, it holds twice as many of them, and a field without
    double quotes is written as it is. *)
Theorem escaping_is_injective_and_doubles (s s' : string) :
  (escapeQuotes s = escapeQuotes s' ↔ s = s')
  ∧ String.length (escapeQuotes s)
    = (String.length s + occurrences dquote s)%nat
  ∧ occurrences dquote (escapeQuotes s) = (2 * occurrences dquote s)%nat
  ∧ (occurrences dquote s = 0%nat ↔ escapeQuotes s = s).
Proof.
  split; [split; [apply escapeQuotes_inj | by intros ->] |].
  split; [apply length_escapeQuotes |].
  split; [apply occurrences_escapeQuotes |].
  split; [apply escapeQuotes_clean |].
  intros E. pose proof (length_escapeQuotes s) as Hlen. rewrite E in Hlen. lia.
Qed.

End EscapeFacts.

(** ** File names, commands and statistics *)

Section SavesFacts.
Import Saver Saves Escape.

Lemma replaceColons_app a b :
  replaceColons (a +:+ b) = replaceColons a +:+ replaceColons b.
Proof.
  induction a as [|x a IH]; [done |].
  rewrite str_app_cons. simpl. by rewrite IH.
Qed.

Lemma replaceColons_no_colon s : occurrences ":"%char (replaceColons s) = 0%nat.
Proof.
  induction s as [|x s IH]; simpl; [done |].
  destruct (Ascii.eqb_spec x ":"%char) as [-> | Hx]; simpl; [done |].
  destruct (Ascii.eqb_spec x ":"%char); [done |]. by rewrite IH.
Qed.

Lemma length_replaceColons s :
  String.length (replaceColons s) = String.length s.
Proof. induction s as [|x s IH]; simpl; [done | by rewrite IH]. Qed.

Lemma length_substring_le n m s : (String.length (String.substring n m s) ≤ m)%nat.
Proof.
  revert n m. induction s as [|x s IH]; intros [|n] [|m]; simpl; try lia.
  - specialize (IH 0%nat m). lia.
  - apply IH.
  - apply IH.
Qed.

(** X10. The file names of the automatic and of the forced save never
    hold a colon, whatever the clock returns: they are the fixed prefix,
    at most 19 characters of the time stamp with the colons turned into
    hyphens, and [.csv]. *)
Theorem save_names_have_no_colon (now : string) :
  let stamp := replaceColons (String.substring 0 19 now) in
  autoSaveName now = "print_jobs_auto_save_" +:+ stamp +:+ ".csv"
  ∧ forceSaveName now = "print_jobs_" +:+ stamp +:+ ".csv"
  ∧ occurrences ":"%char (autoSaveName now) = 0%nat
  ∧ occurrences ":"%char (forceSaveName now) = 0%nat
  ∧ (String.length stamp ≤ 19)%nat.
Proof.
  cbv zeta. unfold autoSaveName, forceSaveName.
  split; [by rewrite !replaceColons_app |].
  split; [by rewrite !replaceColons_app |].
  split; [apply replaceColons_no_colon |].
  split; [apply replaceColons_no_colon |].
  rewrite length_replaceColons. apply length_substring_le.
Qed.

End SavesFacts.

Section CommandFacts.
Import Commands Escape.

Lemma lowercase_app a b : lowercase (a +:+ b) = lowercase a +:+ lowercase b.
Proof.
  induction a as [|x a IH]; [done |].
  rewrite str_app_cons. simpl. by rewrite IH.
Qed.

Lemma length_lowercase s : String.length (lowercase s) = String.length s.
Proof. induction s as [|x s IH]; simpl; [done | by rewrite IH]. Qed.

Lemma tolower_idem c : tolower (tolower c) = tolower c.
Proof.
  destruct c as [[] [] [] [] [] [] [] []]; reflexivity.
Qed.

Lemma tolower_space c : tolower c = " "%char ↔ c = " "%char.
Proof.
  destruct c as [[] [] [] [] [] [] [] []]; split; (reflexivity || discriminate).
Qed.

Lemma lowercase_idem s : lowercase (lowercase s) = lowercase s.
Proof.
  induction s as [|x s IH]; simpl; [done |]. by rewrite tolower_idem, IH.
Qed.

Lemma occurrences_space_lowercase s :
  occurrences " "%char (lowercase s) = occurrences " "%char s.
Proof.
  induction s as [|x s IH]; simpl; [done |]. rewrite IH. f_equal.
  destruct (Ascii.eqb_spec (tolower x) " "%char) as [E | E],
    (Ascii.eqb_spec x " "%char) as [E' | E']; try done.
  - apply (proj1 (tolower_space x)) in E. congruence.
  - subst x. by destruct E.
Qed.

Lemma find_absent c s pos : occurrences c s = 0%nat → find c s pos = None.
Proof.
  revert pos. induction s as [|x s IH]; intros pos; simpl; [by destruct pos |].
  destruct (Ascii.eqb x c); [done |]. intros Hs.
  destruct pos; by rewrite IH.
Qed.

Lemma substring_whole s : String.substring 0 (String.length s) s = s.
Proof. induction s as [|x s IH]; simpl; [done | by rewrite IH]. Qed.

Lemma substring_lowercase n m s :
  String.substring n m (lowercase s) = lowercase (String.substring n m s).
Proof.
  revert n m. induction s as [|x s IH]; intros [|n] [|m]; simpl;
    by rewrite ?IH.
Qed.

(** X11. [export], a space and a name exports to the name in lower
    case, and asks for a name when nothing follows the space. *)
Theorem export_with_name (name : string) :
  dispatch ("export " +:+ name)
  = if String.eqb name "" then AskFilename else DoExport (lowercase name).
Proof.
  unfold dispatch. rewrite lowercase_app.
  change (lowercase "export ") with "export ".
  rewrite !str_app_cons, str_app_nil. cbn -[String.length lowercase].
  unfold substr_from. cbn [String.length Nat.sub String.substring].
  rewrite Nat.sub_0_r, substring_whole, length_lowercase.
  destruct name; reflexivity.
Qed.

(** X12. A line that starts with [export] and holds no space is an
    export to the default file name, whatever follows the six letters. *)
Theorem export_without_space (rest : string) :
  occurrences " "%char rest = 0%nat →
  dispatch ("export" +:+ rest) = DoExport defaultExportName.
Proof.
  intros Hrest. unfold dispatch. rewrite lowercase_app.
  change (lowercase "export") with "export".
  rewrite find_absent.
  2: { rewrite occurrences_app, occurrences_space_lowercase, Hrest. reflexivity. }
  rewrite !str_app_cons, str_app_nil. cbn -[lowercase].
  destruct (lowercase rest); reflexivity.
Qed.

(** X13. For every line that the loop takes as an export command, the
    file name it hands to [exportToCSV] is not empty and holds no capital
    letter. The save command is not covered: [forceSave] builds its
    file name from the clock. *)
Theorem export_name_is_lower_case (line filename : string) :
  dispatch line = DoExport filename →
  filename ≠ "" ∧ lowercase filename = filename.
Proof.
  unfold dispatch.
  repeat match goal with
    | |- context [if ?b then _ else _] => destruct b eqn:?; try discriminate
    end.
  all: intros [= <-]; split.
  all: try (intros E; rewrite E in *; discriminate).
  all: destruct (find " "%char (lowercase line) 6); [| reflexivity].
  all: unfold substr_from; rewrite <- substring_lowercase;
    by rewrite lowercase_idem.
Qed.

End CommandFacts.

Section StatsFacts.
Import Stats.

Lemma withStatus_cons st job jobs :
  withStatus st (job :: jobs)
  = ((if decide (status job = st) then 1 else 0) + withStatus st jobs)%nat.
Proof.
  unfold withStatus. rewrite filter_cons. by destruct (decide (status job = st)).
Qed.

Lemma foldl_countStatus jobs : ∀ (m : gmap string Z) (st : string),
  foldl countStatus m jobs !! st
  = if decide (withStatus st jobs = 0%nat) then m !! st
    else Some (default 0 (m !! st) + Z.of_nat (withStatus st jobs)).
Proof.
  induction jobs as [|job jobs IH]; intros m st; [done |].
  simpl foldl. rewrite IH, withStatus_cons. unfold countStatus.
  destruct (decide (status job = st)) as [-> | Hne].
  - rewrite lookup_insert_eq. simpl default.
    repeat case_decide; try lia; f_equal; lia.
  - rewrite lookup_insert_ne by done.
    repeat case_decide; try lia; f_equal; lia.
Qed.

(** X14. The table [showStatistics] builds has, for every status, the
    number of records with that status, and no entry for a status that
    no record has. *)
Theorem statusCount_counts (printJobs : list PrintJob) (st : string) :
  Z.of_nat (length printJobs) < 2 ^ 31 →
  statusCount printJobs !! st
  = if decide (withStatus st printJobs = 0%nat) then None
    else Some (Z.of_nat (withStatus st printJobs)).
Proof.
  intros _. unfold statusCount. rewrite foldl_countStatus, lookup_empty.
  destruct (decide _); [done |]. simpl. f_equal.
Qed.

End StatsFacts.

(** ** Starting and stopping *)

Section SchedulerFacts.
Import Scheduler.

Lemma startMonitoring_tidy spawn p :
  tidy p → ∃ p' new, startMonitoring spawn p = Some (p', new) ∧ tidy p'
                     ∧ flag p' = true
                     ∧ (spawn = None → monitorJoinable p = flag p →
                        monitorJoinable p' = flag p').
Proof.
  unfold tidy, startMonitoring. destruct p as [[] j]; simpl; intros Htidy.
  - eauto 10.
  - destruct spawn as [what|].
    + eexists _, _. repeat split; auto. done.
    + destruct j; [by specialize (Htidy eq_refl) |].
      eexists _, _. repeat split; auto.
Qed.

Lemma stopMonitoring_tidy p :
  tidy p →
  flag (stopMonitoring p).1 = false ∧ monitorJoinable (stopMonitoring p).1 = false.
Proof.
  unfold tidy, stopMonitoring. destruct p as [[] []]; simpl; try done.
  intros Htidy. by specialize (Htidy eq_refl).
Qed.

Lemma commandLoop_safe inputs : ∀ p notices,
  tidy p →
  match commandLoop inputs p notices with
  | Terminated => False
  | Exited p' _ => flag p' = false ∧ monitorJoinable p' = false
  | Waiting p' _ =>
      tidy p'
      ∧ (Forall (λ i, i.2 = None) inputs → monitorJoinable p = flag p →
         monitorJoinable p' = flag p')
  end.
Proof.
  induction inputs as [|[line spawn] rest IH]; intros p notices Htidy.
  - simpl. done.
  - cbn [commandLoop]. destruct (Commands.dispatch line).
    + destruct (startMonitoring_tidy spawn p Htidy)
        as (p' & new & -> & Htidy' & _ & Hsame).
      specialize (IH p' (notices ++ new) Htidy').
      destruct (commandLoop rest p' _); try done.
      destruct IH as [? IH]. split; [done |].
      intros [Hs Hrest]%Forall_cons Hp. simpl in Hs. auto.
    + destruct (stopMonitoring p) as [p' new] eqn:Hstop.
      pose proof (stopMonitoring_tidy p Htidy) as [Hf Hj].
      rewrite Hstop in Hf, Hj. simpl in Hf, Hj.
      assert (tidy p') as Htidy' by (unfold tidy; congruence).
      specialize (IH p' (notices ++ new) Htidy').
      destruct (commandLoop rest p' _); try done.
      destruct IH as [? IH]. split; [done |].
      intros [_ Hrest]%Forall_cons _. apply IH; [done | congruence].
    + specialize (IH p notices Htidy). destruct (commandLoop rest p _); try done.
      destruct IH as [? IH]. split; [done |].
      intros [_ Hrest]%Forall_cons. by apply IH.
    + specialize (IH p notices Htidy). destruct (commandLoop rest p _); try done.
      destruct IH as [? IH]. split; [done |].
      intros [_ Hrest]%Forall_cons. by apply IH.
    + specialize (IH p notices Htidy). destruct (commandLoop rest p _); try done.
      destruct IH as [? IH]. split; [done |].
      intros [_ Hrest]%Forall_cons. by apply IH.
    + specialize (IH p notices Htidy). destruct (commandLoop rest p _); try done.
      destruct IH as [? IH]. split; [done |].
      intros [_ Hrest]%Forall_cons. by apply IH.
    + specialize (IH p notices Htidy). destruct (commandLoop rest p _); try done.
      destruct IH as [? IH]. split; [done |].
      intros [_ Hrest]%Forall_cons. by apply IH.
    + destruct (flag p) eqn:Hflag.
      * destruct (stopMonitoring p) as [p' new] eqn:Hstop.
        pose proof (stopMonitoring_tidy p Htidy) as [Hf Hj].
        by rewrite Hstop in Hf, Hj.
      * split; [done |]. destruct (monitorJoinable p) eqn:E; [| done].
        specialize (Htidy E). congruence.
    + specialize (IH p notices Htidy). destruct (commandLoop rest p _); try done.
      destruct IH as [? IH]. split; [done |].
      intros [_ Hrest]%Forall_cons. by apply IH.
    + specialize (IH p notices Htidy). destruct (commandLoop rest p _); try done.
      destruct IH as [? IH]. split; [done |].
      intros [_ Hrest]%Forall_cons. by apply IH.
Qed.

(** X15. Whatever is typed and whether or not threads can be created,
    [main] never assigns a new thread over a joinable [monitorThread]
    (which would terminate the process); when it leaves after [quit] or
    [exit] the flag is clear and the monitor thread has been joined; and
    while it waits for input a joinable monitor thread means the flag is
    set, the two being equal when every thread creation succeeded. *)
Theorem main_never_terminates_abnormally (inputs : list (string * option string)) :
  main inputs ≠ Terminated
  ∧ (∀ p notices, main inputs = Exited p notices →
       flag p = false ∧ monitorJoinable p = false)
  ∧ (∀ p notices, main inputs = Waiting p notices →
       (monitorJoinable p = true → flag p = true)
       ∧ (Forall (λ i, i.2 = None) inputs → monitorJoinable p = flag p)).
Proof.
  unfold main.
  assert (tidy initial) as Htidy by (intros E; discriminate E).
  pose proof (commandLoop_safe inputs initial [] Htidy) as Hsafe.
  destruct (commandLoop inputs initial []) as [p notices | p notices |];
    [| | done].
  - destruct Hsafe as [Hf Hj]. rewrite Hf. cbn.
    split; [done |]. split; [| done]. intros p' n' [= <- _]. done.
  - split; [done |]. split; [done |].
    intros p' n' [= <- _]. destruct Hsafe as [Ht Hs]. split; [exact Ht |].
    intros Hall. by apply Hs.
Qed.

(** X16. Starting twice and stopping twice: a start that follows a
    start changes nothing and logs that monitoring is already active,
    also when the first start could not create its thread, so that no
    thread is created until a stop; a stop that follows a stop changes
    nothing and logs that monitoring is not active. *)
Theorem second_start_and_second_stop_are_noops spawn spawn' p p' notices :
  startMonitoring spawn p = Some (p', notices) →
  startMonitoring spawn' p'
  = Some (p', logMessage "INFO" "Monitoring is already active.")
  ∧ stopMonitoring (stopMonitoring p).1
    = ((stopMonitoring p).1, logMessage "INFO" "Monitoring is not active.").
Proof.
  intros Hstart. split.
  - unfold startMonitoring in *. destruct p as [[] j]; simpl in *.
    + by injection Hstart as <- _.
    + destruct spawn; [by injection Hstart as <- _ |].
      destruct j; [done |]. by injection Hstart as <- _.
  - unfold stopMonitoring. by destruct p as [[] j].
Qed.

End SchedulerFacts.

(** ** A whole pass of the monitor *)

Section TraceFacts.

Lemma ioWhileHeld_app m : ∀ a b held,
  ioWhileHeld m held (a ++ b)
  = ioWhileHeld m held a || ioWhileHeld m (heldAfter m held a) b.
Proof.
  induction a as [|e a IH]; intros b held; [done |].
  destruct e; simpl; rewrite IH; try done; by rewrite orb_assoc.
Qed.

Lemma heldAfter_app m : ∀ a b held,
  heldAfter m held (a ++ b) = heldAfter m (heldAfter m held a) b.
Proof.
  induction a as [|e a IH]; intros b held; [done |].
  destruct e; simpl; by rewrite IH.
Qed.

Lemma extendsQuietly_refl t : extendsQuietly t t.
Proof. split; [done |]. exists []. by rewrite app_nil_r. Qed.

Lemma extendsQuietly_trans t1 t2 t3 :
  extendsQuietly t1 t2 → extendsQuietly t2 t3 → extendsQuietly t1 t3.
Proof.
  intros [Hs1 (n1 & E1 & Hio1 & Hh1)] [Hs2 (n2 & E2 & Hio2 & Hh2)].
  split; [lia |]. exists (n1 ++ n2).
  rewrite E2, E1, <- app_assoc, ioWhileHeld_app, heldAfter_app, Hio1, Hh1.
  done.
Qed.

Lemma extendsQuietly_emit es t :
  ioWhileHeld jobsMutex false es = false →
  heldAfter jobsMutex false es = false →
  extendsQuietly t (emit es t).
Proof. intros Hio Hh. split; [done |]. by exists es. Qed.

Lemma extendsQuietly_readFlag env t : extendsQuietly t (readFlag env t).2.
Proof. split; [simpl; lia |]. exists []. by rewrite app_nil_r. Qed.

Lemma extendsQuietly_sleepLoop env n : ∀ t,
  extendsQuietly t (Saver.sleepLoop env n t).
Proof.
  induction n as [|n IH]; intros t; [apply extendsQuietly_refl |].
  cbn [Saver.sleepLoop]. destruct (readFlag env t) as [active t1] eqn:E.
  assert (extendsQuietly t t1) as H1.
  { pose proof (extendsQuietly_readFlag env t) as Hr. by rewrite E in Hr. }
  destruct active; [| done].
  eapply extendsQuietly_trans; [exact H1 |].
  eapply extendsQuietly_trans; [| apply IH].
  by apply extendsQuietly_emit.
Qed.

Lemma extendsQuietly_events t t' :
  extendsQuietly t t' →
  ioWhileHeld jobsMutex false (drop (length (events t)) (events t')) = false.
Proof. intros [_ (new & -> & Hio & _)]. by rewrite drop_app_length. Qed.

End TraceFacts.

Section PollFacts.
Context `{WinSpool}.
Import Store Monitor Poll.

Lemma soundStore_insert job s :
  soundStore s → soundStore (insert_if_novel job s).2.
Proof. intros [Hnd Hlen]. split; [by apply insert_NoDup | by apply insert_length]. Qed.

Lemma recordJob_extends env name info s t :
  extendsQuietly t (recordJob env name info (s, t)).2.2.
Proof.
  rewrite recordJob_unfold. cbn [fst snd].
  split; [simpl; lia |]. eexists. split; [reflexivity |].
  unfold iterationEvents. by destruct (monitoringActive env (S (step t))).
Qed.

Lemma recordJob_sound env name info s t :
  soundStore s → soundStore (recordJob env name info (s, t)).2.1.
Proof.
  intros Hs. rewrite recordJob_unfold. by apply soundStore_insert.
Qed.

Lemma jobLoop_extends env name jobs : ∀ s t,
  extendsQuietly t (jobLoop env name jobs (s, t)).2.
Proof.
  induction jobs as [|info rest IH]; intros s t; [apply extendsQuietly_refl |].
  cbn [jobLoop fst snd].
  pose proof (extendsQuietly_readFlag env t) as Hr.
  destruct (readFlag env t) as [active t1]. cbn [snd] in Hr.
  destruct active; [| done].
  pose proof (recordJob_extends env name info s t1) as Ht'.
  destruct (recordJob env name info (s, t1)) as [path [s' t']].
  cbn [fst snd] in *.
  eapply extendsQuietly_trans; [exact Hr |].
  eapply extendsQuietly_trans; [exact Ht' | apply IH].
Qed.

Lemma jobLoop_sound env name jobs : ∀ s t,
  soundStore s → soundStore (jobLoop env name jobs (s, t)).1.
Proof.
  induction jobs as [|info rest IH]; intros s t Hs; [done |].
  cbn [jobLoop fst snd].
  destruct (readFlag env t) as [active t1].
  destruct active; [| done].
  pose proof (recordJob_sound env name info s t1 Hs) as Hs'.
  destruct (recordJob env name info (s, t1)) as [path [s' t']].
  by apply IH.
Qed.

Lemma keeps_refl st : keeps st st.
Proof. split; [done |]. split; [apply extendsQuietly_refl | done]. Qed.

Lemma keeps_trans st1 st2 st3 : keeps st1 st2 → keeps st2 st3 → keeps st1 st3.
Proof.
  intros (Hs1 & Ht1 & Hh1) (Hs2 & Ht2 & Hh2).
  split; [auto |]. split; [by eapply extendsQuietly_trans | congruence].
Qed.

Lemma keeps_logged level message st : keeps st (logged level message st).
Proof.
  split; [done |]. split; [| done]. by apply extendsQuietly_emit.
Qed.

Lemma keeps_slept n st : keeps st (slept n st).
Proof.
  split; [done |]. split; [| done]. by apply extendsQuietly_emit.
Qed.

Lemma scanPrinter_keeps env p st : keeps st (scanPrinter env p st).
Proof.
  unfold scanPrinter. destruct (opened p); [| apply keeps_logged].
  destruct (0 <? jobBytesNeeded p); [| by destruct st; apply keeps_refl].
  destruct (jobsEnumerated p).
  - cbn [recorded worker openHandles].
    pose proof (jobLoop_sound env (pPrinterName p) (pJobInfo p) (recorded st) (worker st))
      as Hsound.
    pose proof (jobLoop_extends env (pPrinterName p) (pJobInfo p) (recorded st) (worker st))
      as Hext.
    destruct (jobLoop _ _ _ _) as [s' t']. by split.
  - pose proof (keeps_logged "ERROR"
      ("Failed to enumerate jobs. Error: " +:+ Normalize.to_string (jobsError p))
      (mkState (recorded st) (worker st) (S (openHandles st)))) as (Hs & Ht & _).
    by split.
Qed.

Lemma printerLoop_keeps env printers : ∀ st,
  keeps st (printerLoop env printers st).
Proof.
  induction printers as [|p rest IH]; intros st; [apply keeps_refl |].
  cbn [printerLoop].
  pose proof (extendsQuietly_readFlag env (worker st)) as Hr.
  destruct (readFlag env (worker st)) as [active t1]. cbn [snd] in Hr.
  assert (keeps st (mkState (recorded st) t1 (openHandles st))) as H1 by by split.
  destruct active; [| done].
  eapply keeps_trans; [exact H1 |].
  eapply keeps_trans; [apply scanPrinter_keeps | apply IH].
Qed.

Lemma pollPass_keeps env e st : keeps st (pollPass env e st).
Proof.
  unfold pollPass. destruct (bytesNeeded e =? 0).
  { eapply keeps_trans; [apply keeps_logged | apply keeps_slept]. }
  destruct (printersEnumerated e); cbn [negb].
  - eapply keeps_trans; [apply printerLoop_keeps |].
    split; [done |]. split; [apply extendsQuietly_sleepLoop | done].
  - eapply keeps_trans; [apply keeps_logged | apply keeps_slept].
Qed.

Lemma monitorPrintJobs_keeps fuel env spooler : ∀ pass st st',
  monitorPrintJobs fuel env spooler pass st = Some st' → keeps st st'.
Proof.
  induction fuel as [|fuel IH]; intros pass st st'; [done |].
  cbn [monitorPrintJobs].
  pose proof (extendsQuietly_readFlag env (worker st)) as Hr.
  destruct (readFlag env (worker st)) as [active t1]. cbn [snd] in Hr.
  assert (keeps st (mkState (recorded st) t1 (openHandles st))) as H1 by by split.
  destruct active.
  - intros Hrun%IH. eapply keeps_trans; [exact H1 |].
    eapply keeps_trans; [apply pollPass_keeps | exact Hrun].
  - by intros [= <-].
Qed.

(** X17. Whatever the spooler returns in each pass and whenever the
    flag is cleared, [monitorPrintJobs] hands back a store that still has
    no pair twice and at most 1000 records, has closed every printer
    handle it opened, and has written nothing (to the log or elsewhere)
    while it held [jobsMutex]. *)
Theorem monitor_keeps_store_handles_and_lock fuel env spooler st st' :
  NoDup (keyOf <$> recorded st) →
  (length (recorded st) ≤ 1000)%nat →
  monitorPrintJobs fuel env spooler 0 st = Some st' →
  NoDup (keyOf <$> recorded st')
  ∧ (length (recorded st') ≤ 1000)%nat
  ∧ openHandles st' = openHandles st
  ∧ ioWhileHeld jobsMutex false
      (drop (length (events (worker st))) (events (worker st'))) = false.
Proof.
  intros Hnd Hlen Hrun.
  destruct (monitorPrintJobs_keeps _ _ _ _ _ _ Hrun) as (Hs & Ht & Hh).
  destruct (Hs (conj Hnd Hlen)) as [Hnd' Hlen'].
  split; [done |]. split; [done |]. split; [done |].
  by apply extendsQuietly_events.
Qed.

Lemma monitorPrintJobs_returns env spooler N :
  (∀ n, (N ≤ n)%nat → monitoringActive env n = false) →
  ∀ fuel pass st,
    (N - step (worker st) < fuel)%nat →
    ∃ st', monitorPrintJobs fuel env spooler pass st = Some st'.
Proof.
  intros Hoff. induction fuel as [|fuel IH]; intros pass st Hfuel; [lia |].
  cbn [monitorPrintJobs readFlag].
  destruct (monitoringActive env (step (worker st))) eqn:Hflag; [| eauto].
  assert (step (worker st) < N)%nat as Hlt.
  { destruct (Nat.lt_ge_cases (step (worker st)) N) as [? | Hge]; [done |].
    rewrite Hoff in Hflag by done. discriminate. }
  apply IH.
  pose proof (pollPass_keeps env (spooler pass)
    (mkState (recorded st) (mkThread (S (step (worker st))) (events (worker st)))
       (openHandles st))) as (_ & [Hstep _] & _).
  cbn [worker step] in Hstep. lia.
Qed.

(** X18. Stopping is honoured: once the flag stays clear,
    [monitorPrintJobs] returns, so that the join in [stopMonitoring]
    ends; a bound on the passes is the number of steps the thread can
    still make before the flag is clear for good, plus one. *)
Theorem monitor_returns_once_stopped env spooler N st :
  (∀ n, (N ≤ n)%nat → monitoringActive env n = false) →
  ∃ st', monitorPrintJobs (S (N - step (worker st))) env spooler 0 st = Some st'.
Proof. intros Hoff. eapply monitorPrintJobs_returns; [exact Hoff | lia]. Qed.

End PollFacts.

Section SaverMore.
Import Saver.

Lemma periodicSave_returns env N :
  (∀ n, (N ≤ n)%nat → monitoringActive env n = false) →
  ∀ fuel t,
    (N - step t < fuel)%nat → ∃ t', periodicSave fuel env t = Some t'.
Proof.
  intros Hoff. induction fuel as [|fuel IH]; intros t Hfuel; [lia |].
  rewrite periodicSave_unfold.
  destruct (monitoringActive env (step t)) eqn:Hflag; [| eauto].
  assert (step t < N)%nat as Hlt.
  { destruct (Nat.lt_ge_cases (step t) N) as [? | Hge]; [done |].
    rewrite Hoff in Hflag by done. discriminate. }
  cbv zeta.
  pose proof (extendsQuietly_sleepLoop env 1800 (mkThread (S (step t)) (events t)))
    as [Hstep _].
  cbn [step] in Hstep.
  generalize dependent (sleepLoop env 1800 (mkThread (S (step t)) (events t))).
  intros t1 Hstep. apply IH.
  destruct (monitoringActive env (step t1)); cbn [step]; lia.
Qed.

(** X19. [periodicSave] returns once the flag stays clear, so that the
    join at the end of [main] ends. *)
Theorem periodic_save_returns_once_stopped env N t :
  (∀ n, (N ≤ n)%nat → monitoringActive env n = false) →
  ∃ t', periodicSave (S (N - step t)) env t = Some t'.
Proof. intros Hoff. eapply periodicSave_returns; [exact Hoff | lia]. Qed.

End SaverMore.

(** ** Which jobs a pass records *)

Section PassFacts.
Context `{WinSpool}.
Import Store Monitor Poll.

(** The guarded block looks at the pairs only. *)
Lemma insert_same_keys job job' s s' :
  keyOf job = keyOf job' →
  keyOf <$> s = keyOf <$> s' →
  (insert_if_novel job s).1 = (insert_if_novel job' s').1
  ∧ keyOf <$> (insert_if_novel job s).2 = keyOf <$> (insert_if_novel job' s').2.
Proof.
  intros Hjob Hs.
  assert (length s = length s') as Hlen.
  { by rewrite <- (length_fmap keyOf s), Hs, length_fmap. }
  assert (alreadyRecorded s job = alreadyRecorded s' job') as Hscan.
  { destruct (alreadyRecorded s' job') eqn:E.
    - apply alreadyRecorded_elem. apply alreadyRecorded_elem in E. congruence.
    - apply alreadyRecorded_not_elem. apply alreadyRecorded_not_elem in E. congruence. }
  unfold insert_if_novel. rewrite Hscan.
  destruct (alreadyRecorded s' job'); [done |].
  cbv zeta. rewrite !length_app, Hlen. simpl length.
  destruct (_ <? _)%nat; cbn [fst snd]; (split; [done |]).
  - by rewrite !fmap_drop, !fmap_app, Hs, !fmap_cons, Hjob.
  - by rewrite !fmap_app, Hs, !fmap_cons, Hjob.
Qed.

Lemma builtJob_key env name info t stamp :
  keyOf (builtJob env name info t) = keyOf (Normalize.makePrintJob name stamp info).
Proof.
  unfold builtJob, keyOf.
  destruct (makePrintJob_members name (getCurrentTimestamp env (step t)) info)
    as (-> & _ & _ & _ & _ & _ & ->).
  by destruct (makePrintJob_members name stamp info) as (-> & _ & _ & _ & _ & _ & ->).
Qed.

Lemma insert_all_same_keys jobs : ∀ s s',
  keyOf <$> s = keyOf <$> s' →
  keyOf <$> (insert_all jobs s).2 = keyOf <$> (insert_all jobs s').2.
Proof.
  induction jobs as [|job rest IH]; intros s s' Hs; [done |].
  cbn [insert_all].
  destruct (insert_same_keys job job s s' eq_refl Hs) as [_ Hk].
  destruct (insert_if_novel job s) as [p1 s1], (insert_if_novel job s') as [p2 s2].
  specialize (IH s1 s2 Hk).
  by destruct (insert_all rest s1), (insert_all rest s2).
Qed.

Lemma jobLoop_keys env name stamp jobs :
  (∀ n, monitoringActive env n = true) →
  ∀ s s' t,
    keyOf <$> s = keyOf <$> s' →
    keyOf <$> (jobLoop env name jobs (s, t)).1
    = keyOf <$> (insert_all (Normalize.makePrintJob name stamp <$> jobs) s').2.
Proof.
  intros Hon. induction jobs as [|info rest IH]; intros s s' t Hs; [done |].
  cbn [jobLoop fst snd readFlag]. rewrite Hon, recordJob_unfold. cbn [snd].
  rewrite fmap_cons. cbn [insert_all].
  destruct (insert_same_keys (builtJob env name info (mkThread (S (step t)) (events t)))
              (Normalize.makePrintJob name stamp info) s s'
              (builtJob_key _ _ _ _ _) Hs) as [_ Hk].
  destruct (insert_if_novel (Normalize.makePrintJob name stamp info) s') as [p2 s2].
  cbn [snd] in Hk. rewrite (IH _ s2 _ Hk).
  by destruct (insert_all _ s2).
Qed.

Lemma scanPrinter_keys env stamp p st s' :
  (∀ n, monitoringActive env n = true) →
  keyOf <$> recorded st = keyOf <$> s' →
  keyOf <$> recorded (scanPrinter env p st)
  = keyOf <$> (insert_all (candidates stamp [p]) s').2.
Proof.
  intros Hon Hs. unfold candidates. cbn [mbind list_bind]. rewrite app_nil_r.
  unfold scanPrinter, answers.
  destruct (opened p); [| done].
  destruct (0 <? jobBytesNeeded p); [| done].
  destruct (jobsEnumerated p); [| done].
  cbn [andb recorded worker].
  pose proof (jobLoop_keys env (pPrinterName p) stamp (pJobInfo p) Hon
                (recorded st) s' (worker st) Hs) as Hloop.
  by destruct (jobLoop _ _ _ _).
Qed.

Lemma candidates_cons stamp p rest :
  candidates stamp (p :: rest) = candidates stamp [p] ++ candidates stamp rest.
Proof. unfold candidates. cbn [mbind list_bind]. by rewrite app_nil_r. Qed.

Lemma printerLoop_keys env stamp printers :
  (∀ n, monitoringActive env n = true) →
  ∀ st s',
    keyOf <$> recorded st = keyOf <$> s' →
    keyOf <$> recorded (printerLoop env printers st)
    = keyOf <$> (insert_all (candidates stamp printers) s').2.
Proof.
  intros Hon. induction printers as [|p rest IH]; intros st s' Hs; [done |].
  cbn [printerLoop readFlag]. rewrite Hon.
  rewrite candidates_cons, insert_all_app. cbn [snd].
  apply IH. by apply scanPrinter_keys.
Qed.

(** X20. While monitoring stays active, a pass over the printers offers
    to the store, in order, the jobs of every printer whose handle opens
    and whose jobs can be enumerated, and nothing else: the pairs in the
    store afterwards are those that the guarded block leaves when it is
    run on these jobs one after the other. A printer that fails is
    passed over and the printers after it are still visited. *)
Theorem pass_records_jobs_of_answering_printers env stamp e st :
  (∀ n, monitoringActive env n = true) →
  bytesNeeded e ≠ 0 →
  printersEnumerated e = true →
  keyOf <$> recorded (pollPass env e st)
  = keyOf <$> (insert_all (candidates stamp (pPrinterInfo2 e)) (recorded st)).2.
Proof.
  intros Hon Hbytes Hok. unfold pollPass.
  destruct (Z.eqb_spec (bytesNeeded e) 0); [done |].
  rewrite Hok. cbn [negb recorded].
  by apply printerLoop_keys.
Qed.

(** A pass in which [EnumPrinters] asks for no buffer or fails leaves
    the store as it is, logs once (a warning in the first case,
    an error in the second) and sleeps five seconds in one piece, without
    looking at the flag. *)
Lemma failed_enumeration_pass env e st :
  bytesNeeded e = 0 ∨ printersEnumerated e = false →
  recorded (pollPass env e st) = recorded st
  ∧ step (worker (pollPass env e st)) = step (worker st)
  ∧ ∃ level message,
      events (worker (pollPass env e st))
      = events (worker st) ++ logMessage level message ++ [Sleep 5]
      ∧ level = (if bytesNeeded e =? 0 then "WARN" else "ERROR").
Proof.
  intros Hfail. unfold pollPass.
  destruct (Z.eqb_spec (bytesNeeded e) 0) as [Hz | Hnz].
  - split; [done |]. split; [done |]. eexists _, _.
    split; [| reflexivity]. simpl. by rewrite <- app_assoc.
  - destruct Hfail as [? | ->]; [done |]. cbn [negb].
    split; [done |]. split; [done |]. eexists _, _.
    split; [| reflexivity]. simpl. by rewrite <- app_assoc.
Qed.

End PassFacts.

(** ** What an export writes *)

Section ExportMore.
Import Exporter.

Lemma fileWrites_rows (rows : list PrintJob) (rest : list Event) :
  fileWrites ((FileWrite ∘ csvRow <$> rows) ++ rest)
  = (csvRow <$> rows) ++ fileWrites rest.
Proof.
  induction rows as [|job rows IH]; [done |].
  cbn [fmap list_fmap app compose]. simpl. f_equal. exact IH.
Qed.

(** X21. An export whose file opens writes the header and then one row
    per record, in the order of the store, closes the file, logs at INFO
    and returns true; an export whose file does not open writes nothing,
    logs at ERROR and returns false. Neither touches the store. *)
Theorem export_writes_header_and_rows (filename : string)
    (printJobs : list PrintJob) :
  (exportToCSV true filename printJobs).1 = true
  ∧ fileWrites (exportToCSV true filename printJobs).2
    = csvHeader :: (csvRow <$> printJobs)
  ∧ logsAt "ERROR" (exportToCSV true filename printJobs).2 = false
  ∧ (exportToCSV false filename printJobs).1 = false
  ∧ fileWrites (exportToCSV false filename printJobs).2 = []
  ∧ logsAt "ERROR" (exportToCSV false filename printJobs).2 = true.
Proof.
  split; [done |]. split.
  { unfold exportToCSV. cbn [snd app]. simpl fileWrites at 1.
    change (fileWrites (FileWrite csvHeader :: ?l)) with (csvHeader :: fileWrites l).
    f_equal. rewrite fileWrites_rows. simpl. by rewrite app_nil_r. }
  split.
  { unfold exportToCSV, logsAt. cbn [snd app]. simpl.
    rewrite existsb_app. simpl. rewrite orb_false_r.
    induction printJobs as [|job rows IH]; [done | exact IH]. }
  done.
Qed.

End ExportMore.

(** ** What a pass logs, and how the loops sleep *)

Section SleepFacts.
Import Saver.

(** X22. The one-second sleeps are cooperative: a sleep loop of [n]
    rounds sleeps some [k ≤ n] times one second and nothing else; the
    flag read true before each of these seconds, and when the loop ends
    early the flag read false right after the [k]-th second. *)
Theorem sleep_loop_is_cooperative env n : ∀ t,
  ∃ k, (k ≤ n)%nat
       ∧ events (sleepLoop env n t) = events t ++ replicate k (Sleep 1)
       ∧ (∀ i, (i < k)%nat → monitoringActive env (step t + i) = true)
       ∧ ((k < n)%nat → monitoringActive env (step t + k) = false)
       ∧ step (sleepLoop env n t)
         = (step t + k + (if (k <? n)%nat then 1 else 0))%nat.
Proof.
  induction n as [|n IH]; intros t.
  - exists 0%nat. cbn [sleepLoop replicate]. rewrite app_nil_r.
    split; [lia |]. split; [done |]. split; [lia |]. split; [lia |].
    simpl. lia.
  - cbn [sleepLoop readFlag].
    destruct (monitoringActive env (step t)) eqn:Hflag.
    + destruct (IH (emit [Sleep 1] (mkThread (S (step t)) (events t))))
        as (k & Hk & Hev & Hon & Hoff & Hstep).
      cbn [emit step events] in *. exists (S k).
      split; [lia |]. split; [by rewrite Hev, <- app_assoc |].
      split.
      { intros [|i] Hi; [by rewrite Nat.add_0_r |].
        replace (step t + S i)%nat with (S (step t) + i)%nat by lia.
        apply Hon. lia. }
      split.
      { intros Hlt. replace (step t + S k)%nat with (S (step t) + k)%nat by lia.
        apply Hoff. lia. }
      rewrite Hstep.
      destruct (Nat.ltb_spec k n), (Nat.ltb_spec (S k) (S n)); lia.
    + exists 0%nat. cbn [replicate step events]. rewrite app_nil_r, Nat.add_0_r.
      split; [lia |]. split; [done |]. split; [lia |]. split; [done |].
      simpl. lia.
Qed.

End SleepFacts.

Section LogFacts.
Context `{WinSpool}.
Import Store Monitor Poll.

Lemma logMessages_app level a b :
  logMessages level (a ++ b) = logMessages level a ++ logMessages level b.
Proof. unfold logMessages. apply omap_app. Qed.

Lemma slept_app a b : Saver.slept (a ++ b) = (Saver.slept a + Saver.slept b)%nat.
Proof.
  unfold Saver.slept. induction a as [|e a IH]; [done |].
  simpl. rewrite IH. destruct e; lia.
Qed.

Lemma amounts_app a b ia ib ea eb sa sb :
  amounts a ia ea sa → amounts b ib eb sb →
  amounts (a ++ b) (ia ++ ib) (ea + eb) (sa + sb).
Proof.
  intros (Hi & He & Hs) (Hi' & He' & Hs'). unfold amounts.
  rewrite !logMessages_app, slept_app, length_app. by subst.
Qed.

Lemma detectedMessage_built env name info t stamp :
  detectedMessage (builtJob env name info t)
  = detectedMessage (Normalize.makePrintJob name stamp info).
Proof.
  unfold detectedMessage, builtJob.
  destruct (makePrintJob_members name (getCurrentTimestamp env (step t)) info)
    as (-> & _ & -> & _ & _ & _ & ->).
  by destruct (makePrintJob_members name stamp info)
    as (-> & _ & -> & _ & _ & _ & ->).
Qed.

Lemma jobLoop_amounts env name stamp jobs :
  (∀ n, monitoringActive env n = true) →
  ∀ s t, ∃ new,
    events (jobLoop env name jobs (s, t)).2 = events t ++ new
    ∧ amounts new (detectedMessage <$> (Normalize.makePrintJob name stamp <$> jobs))
        0 0.
Proof.
  intros Hon. induction jobs as [|info rest IH]; intros s t.
  - exists []. by rewrite app_nil_r.
  - cbn [jobLoop fst snd readFlag]. rewrite Hon, recordJob_unfold. cbn [snd].
    destruct (IH (insert_if_novel
                    (builtJob env name info (mkThread (S (step t)) (events t))) s).2
                 (mkThread (S (S (S (step t))))
                    (events t ++ iterationEvents env name info
                                   (mkThread (S (step t)) (events t)))))
      as (new & Hev & Hnew).
    cbn [step events] in *.
    eexists. split; [rewrite Hev, <- app_assoc; reflexivity |].
    rewrite !fmap_cons.
    apply (amounts_app _ _ [_] _ 0 0 0 0); [| exact Hnew].
    unfold iterationEvents. cbn [step]. rewrite Hon.
    rewrite (detectedMessage_built _ _ _ _ stamp). done.
Qed.

Lemma scanPrinter_amounts env stamp p st :
  (∀ n, monitoringActive env n = true) →
  ∃ new,
    events (worker (scanPrinter env p st)) = events (worker st) ++ new
    ∧ amounts new (detectedMessage <$> candidates stamp [p])
        (if failing p then 1 else 0) 0.
Proof.
  intros Hon. unfold candidates. cbn [mbind list_bind]. rewrite app_nil_r.
  unfold scanPrinter, answers, failing.
  destruct (opened p); cbn [negb andb orb].
  - destruct (0 <? jobBytesNeeded p); cbn [negb andb orb].
    + destruct (jobsEnumerated p); cbn [negb andb orb recorded worker].
      * destruct (jobLoop_amounts env (pPrinterName p) stamp (pJobInfo p) Hon
                    (recorded st) (worker st)) as (new & Hev & Hnew).
        destruct (jobLoop _ _ _ _) as [s' t']. cbn [snd worker] in *. eauto.
      * eexists. split; [reflexivity |]. done.
    + exists []. cbn [worker]. by rewrite app_nil_r.
  - eexists. split; [reflexivity |]. done.
Qed.

Lemma printerLoop_amounts env stamp printers :
  (∀ n, monitoringActive env n = true) →
  ∀ st, ∃ new,
    events (worker (printerLoop env printers st)) = events (worker st) ++ new
    ∧ amounts new (detectedMessage <$> candidates stamp printers)
        (length (List.filter failing printers)) 0.
Proof.
  intros Hon. induction printers as [|p rest IH]; intros st.
  - exists []. by rewrite app_nil_r.
  - cbn [printerLoop readFlag]. rewrite Hon.
    destruct (scanPrinter_amounts env stamp p
                (mkState (recorded st)
                   (mkThread (S (step (worker st))) (events (worker st)))
                   (openHandles st)) Hon) as (new1 & Hev1 & Hnew1).
    destruct (IH (scanPrinter env p
                (mkState (recorded st)
                   (mkThread (S (step (worker st))) (events (worker st)))
                   (openHandles st)))) as (new2 & Hev2 & Hnew2).
    cbn [worker events] in Hev1.
    exists (new1 ++ new2). split; [by rewrite Hev2, Hev1, <- app_assoc |].
    rewrite candidates_cons, fmap_app.
    replace (length (List.filter failing (p :: rest)))
      with ((if failing p then 1 else 0) + length (List.filter failing rest))%nat
      by (simpl; by destruct (failing p)).
    by apply (amounts_app _ _ _ _ _ _ 0 0).
Qed.

(** X23. While monitoring stays active, a pass whose printer enumeration
    succeeds writes one [Detected print job] entry at INFO for every
    job of every answering printer, in order and whether or not the job
    was already stored; one entry at ERROR for every printer that does
    not open or whose jobs cannot be enumerated; and then sleeps ten
    times one second. *)
Theorem pass_logs_every_enumerated_job env stamp e st :
  (∀ n, monitoringActive env n = true) →
  bytesNeeded e ≠ 0 →
  printersEnumerated e = true →
  ∃ new,
    events (worker (pollPass env e st)) = events (worker st) ++ new
    ∧ logMessages "INFO" new
      = detectedMessage <$> candidates stamp (pPrinterInfo2 e)
    ∧ length (logMessages "ERROR" new)
      = length (List.filter failing (pPrinterInfo2 e))
    ∧ Saver.slept new = 10%nat.
Proof.
  intros Hon Hbytes Hok. unfold pollPass.
  destruct (Z.eqb_spec (bytesNeeded e) 0); [done |].
  rewrite Hok. cbn [negb worker].
  destruct (printerLoop_amounts env stamp (pPrinterInfo2 e) Hon st)
    as (new & Hev & Hnew).
  rewrite sleepLoop_active by (intros; apply Hon). cbn [events].
  exists (new ++ replicate 10 (Sleep 1)).
  split; [by rewrite Hev, <- app_assoc |].
  pose proof (amounts_app new (replicate 10 (Sleep 1)) _ [] _ 0 _ 10 Hnew
                ltac:(done)) as (Hi & He & Hs).
  rewrite app_nil_r in Hi. rewrite Nat.add_0_r in He. done.
Qed.

End LogFacts.

(** ** Concrete instances *)

Section MoreExamples.
Import Store.

Lemma office_key_inj n m :
  keyOf (Samples.office n) = keyOf (Samples.office m) → n = m.
Proof.
  unfold Samples.office, keyOf.
  destruct (makePrintJob_members (H := windows_sdk) (Some "Office")
              Samples.stamp (Samples.spooled n)) as (_ & _ & _ & _ & _ & _ & ->).
  destruct (makePrintJob_members (H := windows_sdk) (Some "Office")
              Samples.stamp (Samples.spooled m)) as (_ & _ & _ & _ & _ & _ & ->).
  intros [= E]. apply to_string_inj in E; simpl; lia.
Qed.

Lemma office_keys_NoDup a n : NoDup (keyOf <$> (Samples.office <$> seq a n)).
Proof.
  rewrite <- list_fmap_compose. apply NoDup_fmap_2_strong; [| apply NoDup_seq].
  intros x y _ _. apply office_key_inj.
Qed.

Lemma office_key_fresh a n m :
  (m < a ∨ a + n ≤ m)%nat →
  keyOf (Samples.office m) ∉ keyOf <$> (Samples.office <$> seq a n).
Proof.
  intros Hm (job & Hkey & (x & -> & Hx%elem_of_seq)%list_elem_of_fmap)%list_elem_of_fmap.
  apply office_key_inj in Hkey. lia.
Qed.

Lemma insert_all_closed_form_witness :
  (insert_all [Samples.office 1000; Samples.office 1001] MoreSamples.full).2
  = drop 100 (MoreSamples.full ++ [Samples.office 1000; Samples.office 1001]).
Proof.
  rewrite (insert_all_closed_form
             [Samples.office 1000; Samples.office 1001] MoreSamples.full).
  - reflexivity.
  - reflexivity.
  - apply (office_keys_NoDup 1000 2).
  - intros job [-> | [-> | []%elem_of_nil]%elem_of_cons]%elem_of_cons;
      apply office_key_fresh; lia.
Defined.

Lemma eviction_forgets_oldest_witness :
  alreadyRecorded
    (insert_if_novel (Samples.office 1000) MoreSamples.full).2 (Samples.office 5)
  = false
  ∧ inserted
      (insert_if_novel (Samples.office 5)
         (insert_if_novel (Samples.office 1000) MoreSamples.full).2).1
    = true.
Proof.
  apply (eviction_forgets_oldest MoreSamples.full (Samples.office 1000)
           (Samples.office 5)).
  - reflexivity.
  - apply office_keys_NoDup.
  - apply office_key_fresh. lia.
  - apply list_elem_of_lookup. exists 5%nat. reflexivity.
Defined.

Lemma same_key_iff_same_printer_and_id_witness :
  keyOf (@Normalize.makePrintJob windows_sdk (Some "Office") "10:00"
           (mkJOB_INFO_2 7 (Some "alice") None 0 1 1024 0))
  = keyOf (@Normalize.makePrintJob windows_sdk (Some "Office") "10:10"
             (mkJOB_INFO_2 7 (Some "alice") None 0x10 1 1024 1)).
Proof.
  apply (same_key_iff_same_printer_and_id (H := windows_sdk)
           (Some "Office") (Some "Office") "10:00" "10:10"
           (mkJOB_INFO_2 7 (Some "alice") None 0 1 1024 0)
           (mkJOB_INFO_2 7 (Some "alice") None 0x10 1 1024 1)).
  - simpl. lia.
  - simpl. lia.
  - split; reflexivity.
Defined.

Lemma escape_loop_doubles_every_quote_witness :
  Escape.escapeLoop 3 MoreSamples.he_said_hi 0
  = Some ("He said " +:+ Escape.twoQuotes +:+ "hi" +:+ Escape.twoQuotes).
Proof.
  rewrite (escape_loop_doubles_every_quote MoreSamples.he_said_hi 3).
  - reflexivity.
  - vm_compute. lia.
Defined.

Lemma export_without_space_witness :
  Commands.dispatch "exporter_XYZ" = Commands.DoExport Commands.defaultExportName.
Proof.
  apply (export_without_space "er_XYZ"). reflexivity.
Defined.

Lemma export_name_is_lower_case_witness :
  "report.csv" ≠ "" ∧ Commands.lowercase "report.csv" = "report.csv".
Proof.
  apply (export_name_is_lower_case "EXPORT Report.CSV" "report.csv").
  reflexivity.
Defined.

Lemma statusCount_counts_witness :
  Stats.statusCount MoreSamples.three_jobs !! "Printing" = Some 2
  ∧ Stats.statusCount MoreSamples.three_jobs !! "Paused" = None.
Proof.
  split.
  - rewrite (statusCount_counts MoreSamples.three_jobs "Printing");
      [reflexivity | simpl; lia].
  - rewrite (statusCount_counts MoreSamples.three_jobs "Paused");
      [reflexivity | simpl; lia].
Defined.

Lemma second_start_and_second_stop_are_noops_witness :
  Scheduler.startMonitoring None (Scheduler.mkProcess true true)
  = Some (Scheduler.mkProcess true true,
          logMessage "INFO" "Monitoring is already active.")
  ∧ Scheduler.stopMonitoring (Scheduler.stopMonitoring Scheduler.initial).1
    = ((Scheduler.stopMonitoring Scheduler.initial).1,
       logMessage "INFO" "Monitoring is not active.").
Proof.
  apply (second_start_and_second_stop_are_noops None None Scheduler.initial
           (Scheduler.mkProcess true true)
           (logMessage "INFO" "Print job monitoring started.")).
  reflexivity.
Defined.

Lemma monitor_keeps_store_handles_and_lock_witness :
  ∃ st',
    @Poll.monitorPrintJobs windows_sdk 2 MoreSamples.stopping
      (λ _, MoreSamples.two_printers) 0 MoreSamples.fresh = Some st'
    ∧ NoDup (keyOf <$> Poll.recorded st')
    ∧ (length (Poll.recorded st') ≤ 1000)%nat
    ∧ Poll.openHandles st' = 0%nat.
Proof.
  eexists. split; [reflexivity |].
  destruct (monitor_keeps_store_handles_and_lock (H := windows_sdk) 2
              MoreSamples.stopping (λ _, MoreSamples.two_printers)
              MoreSamples.fresh _ NoDup_nil_2 (Nat.le_0_l _) eq_refl)
    as (Hnd & Hlen & Hh & _).
  split; [exact Hnd |]. split; [exact Hlen | exact Hh].
Defined.

Lemma monitor_returns_once_stopped_witness :
  ∃ st',
    @Poll.monitorPrintJobs windows_sdk 4 MoreSamples.stopping
      (λ _, MoreSamples.two_printers) 0 MoreSamples.fresh = Some st'.
Proof.
  apply (monitor_returns_once_stopped (H := windows_sdk) MoreSamples.stopping
           (λ _, MoreSamples.two_printers) 3 MoreSamples.fresh).
  intros n Hn. simpl. apply Nat.ltb_ge. exact Hn.
Defined.

Lemma periodic_save_returns_once_stopped_witness :
  ∃ t', Saver.periodicSave 4 MoreSamples.stopping Samples.idle = Some t'.
Proof.
  apply (periodic_save_returns_once_stopped MoreSamples.stopping 3 Samples.idle).
  intros n Hn. simpl. apply Nat.ltb_ge. exact Hn.
Defined.

Lemma pass_records_jobs_of_answering_printers_witness :
  keyOf <$> Poll.recorded
              (@Poll.pollPass windows_sdk Samples.running
                 MoreSamples.two_printers MoreSamples.fresh)
  = [("Office", "1"); ("Office", "2")].
Proof.
  rewrite (pass_records_jobs_of_answering_printers (H := windows_sdk)
             Samples.running Samples.stamp MoreSamples.two_printers
             MoreSamples.fresh).
  - reflexivity.
  - reflexivity.
  - simpl. lia.
  - reflexivity.
Defined.

Lemma pass_logs_every_enumerated_job_witness :
  ∃ new,
    events (Poll.worker (@Poll.pollPass windows_sdk Samples.running
                           MoreSamples.two_printers MoreSamples.fresh))
    = events (Poll.worker MoreSamples.fresh) ++ new
    ∧ logMessages "INFO" new
      = ["Detected print job: 1 on Office - Status: Queued";
         "Detected print job: 2 on Office - Status: Queued"]
    ∧ length (logMessages "ERROR" new) = 1%nat
    ∧ Saver.slept new = 10%nat.
Proof.
  destruct (pass_logs_every_enumerated_job (H := windows_sdk) Samples.running
              Samples.stamp MoreSamples.two_printers MoreSamples.fresh)
    as (new & Hev & Hinfo & Herr & Hsleep).
  - reflexivity.
  - simpl. lia.
  - reflexivity.
  - exists new. split; [exact Hev |]. split; [exact Hinfo |].
    split; [exact Herr | exact Hsleep].
Defined.

End MoreExamples.
